(** * Chain engine of the Lisk SDK: a shallow embedding

    The development follows [Chain] (the class of lisk-chain whose source
    is [chain.ts]): the reward schedule, the state-store factory, block
    commit and revert, and validator rotation.  Collaborators whose source
    is not part of the tree (block reward, slots, data access, state store,
    proof-of-misbehavior asset) are modelled from the design document and
    are marked as such.

    Conventions.  A JavaScript [number] holding a height, a timestamp or a
    count is a [Z]; a [bigint] amount is a [Z]; a [Buffer] is a list of
    bytes; [undefined] is [None]; a rejected promise or a thrown [Error]
    is [Throw msg], returned together with the state the call leaves
    behind. *)

From Stdlib Require Import ZArith List Lia Strings.Byte Sorting.Sorted.
From stdpp Require Import base option list gmap strings.

Open Scope Z_scope.

(** ** Buffers and results *)

#[global] Instance byte_eq_dec : EqDecision byte := Byte.byte_eq_dec.

#[global] Instance byte_countable : Countable byte :=
  inj_countable Byte.to_N Byte.of_N Byte.of_to_N.

Abbreviation Buffer := (list byte).

Inductive Result (A : Type) : Type :=
| Ok (a : A)
| Throw (msg : string).
Arguments Ok {A} a.
Arguments Throw {A} msg.

(** ** JavaScript arithmetic and indexing used by the chain *)

(** [a % b] on integral numbers: the remainder takes the sign of the
    dividend, and [NaN] ([None]) when the divisor is zero. *)
Definition js_rem (a b : Z) : option Z :=
  if b =? 0 then None else Some (Z.rem a b).

(** [l[i]] for a numeric index: [undefined] for [NaN], for a negative
    index and past the end. *)
Definition js_index {A : Type} (l : list A) (i : option Z) : option A :=
  match i with
  | None => None
  | Some i => if i <? 0 then None else l !! Z.to_nat i
  end.

(** ** Block reward *)

Record BlockRewardOptions : Type := mkBlockRewardOptions {
  distance : Z;
  rewardOffset : Z;
  milestones : list Z;
}.

Module BlockReward.

(** Modelled from the spec: [calculateMilestone] of [block_reward.ts],
    which is not in the tree.  The milestone index advances by one every
    [distance] blocks after [rewardOffset] and stops at the last entry of
    the list. *)
Definition calculateMilestone (height : Z) (args : BlockRewardOptions) : Z :=
  let location := (height - rewardOffset args) / distance args in
  let lastIndex := Z.of_nat (length (milestones args)) - 1 in
  if location >? lastIndex then lastIndex else location.

(** Modelled from the spec: [calculateDefaultReward] of [block_reward.ts],
    which is not in the tree.  Before [rewardOffset] the reward is 0; from
    there on it is the milestone selected by [calculateMilestone].  The
    schedule has at least one milestone; on an empty list the amount is
    taken as 0. *)
Definition calculateDefaultReward (height : Z) (args : BlockRewardOptions) : Z :=
  if height <? rewardOffset args then 0
  else nth (Z.to_nat (calculateMilestone height args)) (milestones args) 0.

(** The milestone list is descending. *)
Definition descending (ms : list Z) : Prop := StronglySorted Z.ge ms.

(** The default schedule of the application configuration. *)
Definition defaultRewards : BlockRewardOptions :=
  {| distance := 3000000;
     rewardOffset := 2160;
     milestones := [500000000; 400000000; 300000000; 200000000; 100000000] |}.

End BlockReward.

(** ** Data model *)

Module Account.
(** An account: the address and the module-defined properties the chain
    core and the proof-of-misbehavior rule read ([token.balance],
    [dpos.delegate.username], [dpos.delegate.pomHeights],
    [dpos.delegate.isBanned]). *)
Record t : Type := mk {
  address : Buffer;
  balance : Z;
  username : string;
  pomHeights : list Z;
  isBanned : bool;
}.
End Account.

Module Validator.
Record t : Type := mk {
  address : Buffer;
  minActiveHeight : Z;
  isConsensusParticipant : bool;
}.
End Validator.

Module ValidatorInput.
(** The argument type of [setValidators]:
    [{ address: Buffer; isConsensusParticipant: boolean }]. *)
Record t : Type := mk {
  address : Buffer;
  isConsensusParticipant : bool;
}.
End ValidatorInput.

Record Transaction : Type := mkTransaction {
  tx_id : Buffer;
  tx_bytes : Buffer;
}.

Record BlockHeader (A : Type) : Type := mkBlockHeader {
  id : Buffer;
  version : Z;
  timestamp : Z;
  height : Z;
  previousBlockID : Buffer;
  transactionRoot : Buffer;
  generatorPublicKey : Buffer;
  reward : Z;
  asset : A;
  signature : Buffer;
}.
Arguments mkBlockHeader {A}.
Arguments id {A}.
Arguments version {A}.
Arguments timestamp {A}.
Arguments height {A}.
Arguments previousBlockID {A}.
Arguments transactionRoot {A}.
Arguments generatorPublicKey {A}.
Arguments reward {A}.
Arguments asset {A}.
Arguments signature {A}.

Record GenesisBlockAsset : Type := mkGenesisBlockAsset {
  accounts : list Account.t;
  initDelegates : list Buffer;
  initRounds : Z;
}.

(** The asset of a header as the chain holds it: the asset schema is
    selected by the header version, the genesis asset being one of them. *)
Inductive HeaderAsset : Type :=
| GenesisAsset (a : GenesisBlockAsset)
| ForgingAsset (maxHeightPreviouslyForged maxHeightPrevoted : Z) (seedReveal : Buffer).

Record BlockOf (A : Type) : Type := mkBlock {
  header : BlockHeader A;
  payload : list Transaction;
}.
Arguments mkBlock {A}.
Arguments header {A}.
Arguments payload {A}.

Abbreviation Block := (BlockOf HeaderAsset).
Abbreviation GenesisBlock := (BlockOf GenesisBlockAsset).
Abbreviation Header := (BlockHeader HeaderAsset).

(** [(genesisBlock as unknown) as Block]. *)
Definition asBlock (g : GenesisBlock) : Block :=
  let h := header g in
  {| header :=
       {| id := id h; version := version h; timestamp := timestamp h;
          height := height h; previousBlockID := previousBlockID h;
          transactionRoot := transactionRoot h;
          generatorPublicKey := generatorPublicKey h; reward := reward h;
          asset := GenesisAsset (asset h); signature := signature h |};
     payload := payload g |}.

(** ** Serialization service (external) *)

(** The codec is an opaque schema-driven service; the chain only calls
    [encode] and [decode] at the account and the validators schema. *)
Class Codec : Type := mkCodec {
  encodeAccount : Account.t → Buffer;
  decodeAccount : Buffer → Account.t;
  encodeValidators : list Validator.t → Buffer;
  decodeValidators : Buffer → list Validator.t;
}.

(** ** Persistent state, diffs *)

Inductive StateKey : Type :=
| AccountKey (address : Buffer)
| ConsensusKey (key : string).

#[global] Instance StateKey_eq_dec : EqDecision StateKey.
Proof. solve_decision. Defined.

#[global] Instance StateKey_countable : Countable StateKey :=
  inj_countable'
    (λ k, match k with AccountKey a => inl a | ConsensusKey s => inr s end)
    (λ s, match s with inl a => AccountKey a | inr s => ConsensusKey s end)
    (λ k, match k with AccountKey _ => eq_refl | ConsensusKey _ => eq_refl end).

(** Modelled from the spec: [CONSENSUS_STATE_VALIDATORS_KEY] of
    [constants.ts], which is not in the tree: the key of the validator
    set in the consensus state. *)
Definition CONSENSUS_STATE_VALIDATORS_KEY : string := "validators".

Section Diff.
Context {K : Type} `{Countable K} {V : Type}.

(** The diff of one commit: the keys it created and, for the keys it
    overwrote, the value they had before. *)
Record StateDiff : Type := mkStateDiff {
  created : list K;
  updated : list (K * V);
}.

(** Modelled from the spec: the batch write of a commit ("on commit, only
    dirty entries are written"); later writes to a key win. *)
Definition applyWrites (ws : list (K * V)) (m : gmap K V) : gmap K V :=
  foldl (λ acc kv, <[kv.1 := kv.2]> acc) m ws.

Definition emptyDiff : StateDiff := {| created := []; updated := [] |}.

(** Modelled from the spec: the diff entry a mutation records ("diff
    entries recorded per mutation enable exact reversal"): the value the
    store had read for the key, or, when it had read none, that the key
    is created. *)
Definition recordEntry (key : K) (previous : option V) (d : StateDiff) : StateDiff :=
  match previous with
  | Some value => {| created := created d; updated := updated d ++ [(key, value)] |}
  | None => {| created := created d ++ [key]; updated := updated d |}
  end.

(** Modelled from the spec: reverting a diff deletes the created keys and
    restores the previous values of the updated ones. *)
Definition revertDiff (d : StateDiff) (m : gmap K V) : gmap K V :=
  foldr (λ kv acc, <[kv.1 := kv.2]> acc)
        (foldr delete m (created d)) (updated d).

End Diff.
Arguments StateDiff : clear implicits.

(** ** Data access layer and state store: records *)

(** Modelled from the spec: the data access layer of [data_access.ts],
    which is not in the tree: the persistent store (blocks by id, the
    height index, temporary blocks, account and consensus state, the diff
    of every committed height) and the bounded cache of recent headers. *)
Record DataAccess : Type := mkDataAccess {
  blocks : gmap Buffer Block;
  blockIDsByHeight : gmap Z Buffer;
  tempBlocks : gmap Z Block;
  state : gmap StateKey Buffer;
  diffs : gmap Z (StateDiff StateKey Buffer);
  blocksCache : list Header;
  minBlockHeaderCache : Z;
  maxBlockHeaderCache : Z;
}.

(** Modelled from the spec: the state store of [state_store.ts], which is
    not in the tree: an overlay of account and consensus state over the
    data access layer it was created with, the dirty keys in the order
    they were first written, a window of recent headers and the last
    block's reward; the persisted values it read through
    ([accountInitial], [consensusInitial]) and the diff it has recorded
    so far ([stateDiff]). *)
Record StateStore : Type := mkStateStore {
  ss_dataAccess : DataAccess;
  networkIdentifier : Buffer;
  lastBlockHeaders : list Header;
  lastBlockReward : Z;
  defaultAccount : Account.t;
  accountData : gmap Buffer Account.t;
  accountUpdated : list Buffer;
  consensusData : gmap string Buffer;
  consensusUpdated : list string;
  accountInitial : gmap Buffer Buffer;
  consensusInitial : gmap string Buffer;
  stateDiff : StateDiff StateKey Buffer;
}.

Module StateStoreOps.
Section WithCodec.
Context `{Codec}.

(** [new StateStore(dataAccess, { networkIdentifier, lastBlockHeaders,
    lastBlockReward, defaultAccount })]. *)
Definition new (da : DataAccess) (networkIdentifier : Buffer)
    (lastBlockHeaders : list Header) (lastBlockReward : Z)
    (defaultAccount : Account.t) : StateStore :=
  {| ss_dataAccess := da; networkIdentifier := networkIdentifier;
     lastBlockHeaders := lastBlockHeaders; lastBlockReward := lastBlockReward;
     defaultAccount := defaultAccount;
     accountData := ∅; accountUpdated := []; consensusData := ∅;
     consensusUpdated := [];
     accountInitial := ∅; consensusInitial := ∅; stateDiff := emptyDiff |}.

Definition withAccounts (ss : StateStore) (data : gmap Buffer Account.t)
    (dirty : list Buffer) : StateStore :=
  {| ss_dataAccess := ss_dataAccess ss; networkIdentifier := networkIdentifier ss;
     lastBlockHeaders := lastBlockHeaders ss; lastBlockReward := lastBlockReward ss;
     defaultAccount := defaultAccount ss;
     accountData := data; accountUpdated := dirty;
     consensusData := consensusData ss; consensusUpdated := consensusUpdated ss;
     accountInitial := accountInitial ss; consensusInitial := consensusInitial ss;
     stateDiff := stateDiff ss |}.

Definition withConsensus (ss : StateStore) (data : gmap string Buffer)
    (dirty : list string) : StateStore :=
  {| ss_dataAccess := ss_dataAccess ss; networkIdentifier := networkIdentifier ss;
     lastBlockHeaders := lastBlockHeaders ss; lastBlockReward := lastBlockReward ss;
     defaultAccount := defaultAccount ss;
     accountData := accountData ss; accountUpdated := accountUpdated ss;
     consensusData := data; consensusUpdated := dirty;
     accountInitial := accountInitial ss; consensusInitial := consensusInitial ss;
     stateDiff := stateDiff ss |}.

(** The store with what it has read through and recorded replaced. *)
Definition withRecords (ss : StateStore) (accounts : gmap Buffer Buffer)
    (consensus : gmap string Buffer) (d : StateDiff StateKey Buffer) : StateStore :=
  {| ss_dataAccess := ss_dataAccess ss; networkIdentifier := networkIdentifier ss;
     lastBlockHeaders := lastBlockHeaders ss; lastBlockReward := lastBlockReward ss;
     defaultAccount := defaultAccount ss;
     accountData := accountData ss; accountUpdated := accountUpdated ss;
     consensusData := consensusData ss; consensusUpdated := consensusUpdated ss;
     accountInitial := accounts; consensusInitial := consensus; stateDiff := d |}.

(** Marks a key dirty, keeping the order of first writes. *)
Definition markDirty {K : Type} `{EqDecision K} (k : K) (dirty : list K) : list K :=
  if decide (k ∈ dirty) then dirty else dirty ++ [k].

(** Modelled from the spec: [account.get(address)]; a miss falls through
    to the persistent store and is cached for the lifetime of the store,
    which keeps the bytes it read; an address the store does not know
    yields no account. *)
Definition account_get (ss : StateStore) (address : Buffer)
    : option Account.t * StateStore :=
  match accountData ss !! address with
  | Some a => (Some a, ss)
  | None =>
      match state (ss_dataAccess ss) !! AccountKey address with
      | Some bytes =>
          let a := decodeAccount bytes in
          (Some a,
           withRecords
             (withAccounts ss (<[address := a]> (accountData ss)) (accountUpdated ss))
             (<[address := bytes]> (accountInitial ss)) (consensusInitial ss)
             (stateDiff ss))
      | None => (None, ss)
      end
  end.

(** Modelled from the spec: [account.set(address, account)] marks the
    address dirty; the first write to an address records its diff
    entry. *)
Definition account_set (ss : StateStore) (address : Buffer) (a : Account.t)
    : StateStore :=
  withRecords
    (withAccounts ss (<[address := a]> (accountData ss))
       (markDirty address (accountUpdated ss)))
    (accountInitial ss) (consensusInitial ss)
    (if decide (address ∈ accountUpdated ss) then stateDiff ss
     else recordEntry (AccountKey address) (accountInitial ss !! address) (stateDiff ss)).

(** Modelled from the spec: [account.getUpdated()], the ordered list of
    dirty accounts. *)
Definition account_getUpdated (ss : StateStore) : list Account.t :=
  omap (λ address, accountData ss !! address) (accountUpdated ss).

(** Modelled from the spec: [consensus.get(key)], read-through like
    [account.get]. *)
Definition consensus_get (ss : StateStore) (key : string)
    : option Buffer * StateStore :=
  match consensusData ss !! key with
  | Some v => (Some v, ss)
  | None =>
      match state (ss_dataAccess ss) !! ConsensusKey key with
      | Some v =>
          (Some v,
           withRecords
             (withConsensus ss (<[key := v]> (consensusData ss)) (consensusUpdated ss))
             (accountInitial ss) (<[key := v]> (consensusInitial ss)) (stateDiff ss))
      | None => (None, ss)
      end
  end.

(** Modelled from the spec: [consensus.set(key, bytes)]; the first write
    to a key records its diff entry. *)
Definition consensus_set (ss : StateStore) (key : string) (v : Buffer)
    : StateStore :=
  withRecords
    (withConsensus ss (<[key := v]> (consensusData ss))
       (markDirty key (consensusUpdated ss)))
    (accountInitial ss) (consensusInitial ss)
    (if decide (key ∈ consensusUpdated ss) then stateDiff ss
     else recordEntry (ConsensusKey key) (consensusInitial ss !! key) (stateDiff ss)).

(** Modelled from the spec: the writes of a commit, the dirty accounts
    (encoded) followed by the dirty consensus values. *)
Definition dirtyWrites (ss : StateStore) : list (StateKey * Buffer) :=
  omap (λ address, (λ a, (AccountKey address, encodeAccount a)) <$> accountData ss !! address)
       (accountUpdated ss)
  ++ omap (λ key, (λ v, (ConsensusKey key, v)) <$> consensusData ss !! key)
          (consensusUpdated ss).

End WithCodec.
End StateStoreOps.

Module DataAccessOps.
Section WithCodec.
Context `{Codec}.

Definition withStore (da : DataAccess) (blocks : gmap Buffer Block)
    (byHeight : gmap Z Buffer) (temp : gmap Z Block)
    (state : gmap StateKey Buffer) (diffs : gmap Z (StateDiff StateKey Buffer))
    : DataAccess :=
  {| blocks := blocks; blockIDsByHeight := byHeight; tempBlocks := temp;
     state := state; diffs := diffs; blocksCache := blocksCache da;
     minBlockHeaderCache := minBlockHeaderCache da;
     maxBlockHeaderCache := maxBlockHeaderCache da |}.

Definition withCache (da : DataAccess) (cache : list Header) : DataAccess :=
  {| blocks := blocks da; blockIDsByHeight := blockIDsByHeight da;
     tempBlocks := tempBlocks da; state := state da; diffs := diffs da;
     blocksCache := cache;
     minBlockHeaderCache := minBlockHeaderCache da;
     maxBlockHeaderCache := maxBlockHeaderCache da |}.

(** Modelled from the spec: [getBlockByID]; an id that is not stored
    fails with the not-found kind. *)
Definition getBlockByID (da : DataAccess) (id : Buffer) : Result Block :=
  match blocks da !! id with
  | Some b => Ok b
  | None => Throw "NotFound"
  end.

(** Modelled from the spec: [getBlockHeadersByHeightBetween], the headers
    stored at the heights of the closed range, by ascending height. *)
Definition getBlockHeadersByHeightBetween (da : DataAccess)
    (fromHeight toHeight : Z) : list Header :=
  omap (λ h, blockIDsByHeight da !! h ≫= λ id, header <$> blocks da !! id)
       (seqZ fromHeight (toHeight - fromHeight + 1)).

(** Modelled from the spec: [getConsensusState(key)]. *)
Definition getConsensusState (da : DataAccess) (key : string) : option Buffer :=
  state da !! ConsensusKey key.

(** Modelled from the spec: [addBlockHeader]; the cache keeps the most
    recent headers and evicts the oldest beyond its maximum size. *)
Definition addBlockHeader (da : DataAccess) (h : Header) : DataAccess :=
  let items := blocksCache da ++ [h] in
  withCache da
    (if Z.of_nat (length items) >? maxBlockHeaderCache da then tail items else items).

(** Modelled from the spec: [removeBlockHeader(id)] drops the header from
    the cache. *)
Definition removeBlockHeader (da : DataAccess) (blockID : Buffer) : DataAccess :=
  withCache da (filter (λ h : Header, id h ≠ blockID) (blocksCache da)).

(** Modelled from the spec: [saveBlock] persists the block under its id
    and its height and commits the state store in one batch: its dirty
    entries are written and the diff it recorded is stored under the
    block's height.  Once the batch is written, the diffs kept for
    heights below [finalizedHeight], whose blocks are final, are
    dropped. *)
Definition saveBlock (da : DataAccess) (block : Block) (stateStore : StateStore)
    (finalizedHeight : Z) (removeFromTemp : bool) : DataAccess :=
  let h := height (header block) in
  let ws := StateStoreOps.dirtyWrites stateStore in
  withStore da
    (<[id (header block) := block]> (blocks da))
    (<[h := id (header block)]> (blockIDsByHeight da))
    (if removeFromTemp then delete h (tempBlocks da) else tempBlocks da)
    (applyWrites ws (state da))
    (filter (λ kv, finalizedHeight <= kv.1)
       (<[h := stateDiff stateStore]> (diffs da))).

(** Modelled from the spec: the reverted accounts reported by
    [deleteBlock], the previous values of the overwritten accounts,
    decoded. *)
Definition revertedAccounts (d : StateDiff StateKey Buffer) : list Account.t :=
  omap (λ kv : StateKey * Buffer,
          match kv.1 with
          | AccountKey _ => Some (decodeAccount kv.2)
          | ConsensusKey _ => None
          end) (updated d).

(** Modelled from the spec: [deleteBlock] removes the block and reverts
    the diff persisted for its height, returning the reverted accounts;
    a height without a persisted diff fails with the not-found kind.  The
    state store it is handed goes out with the same batch: its dirty
    entries, if it has any, are written after the revert. *)
Definition deleteBlock (da : DataAccess) (block : Block) (stateStore : StateStore)
    (saveToTemp : bool) : Result (list Account.t) * DataAccess :=
  let h := height (header block) in
  match diffs da !! h with
  | None => (Throw "NotFound", da)
  | Some d =>
      (Ok (revertedAccounts d),
       withStore da
         (delete (id (header block)) (blocks da))
         (delete h (blockIDsByHeight da))
         (if saveToTemp then <[h := block]> (tempBlocks da) else tempBlocks da)
         (applyWrites (StateStoreOps.dirtyWrites stateStore) (revertDiff d (state da)))
         (delete h (diffs da)))
  end.

End WithCodec.
End DataAccessOps.

(** ** Slots *)

Record Slots : Type := mkSlots {
  genesisBlockTimestamp : Z;
  interval : Z;
}.

(** Modelled from the spec: [Slots.getSlotNumber] of [slots.ts], which is
    not in the tree: the number of whole block intervals elapsed since
    the genesis timestamp. *)
Definition getSlotNumber (s : Slots) (timeStamp : Z) : Z :=
  (timeStamp - genesisBlockTimestamp s) / interval s.

(** ** Reads of the data access layer *)

(** What a read of the persistent store settles to: the value, the
    not-found kind ([NotFoundError] of lisk-db), or any other failure. *)
Inductive Lookup (A : Type) : Type :=
| Found (a : A)
| NotFoundError
| StorageFailure (msg : string).
Arguments Found {A} a.
Arguments NotFoundError {A}.
Arguments StorageFailure {A} msg.

(** The two header reads [genesisBlockExist] performs on the data access
    layer. *)
Record HeaderReads : Type := mkHeaderReads {
  getBlockHeaderByID : Buffer → Lookup Header;
  getLastBlockHeader : Lookup Header;
}.

(** ** The chain engine *)

Inductive Event : Type :=
| EVENT_NEW_BLOCK (block : Block) (accounts : list Account.t)
| EVENT_DELETE_BLOCK (block : Block) (accounts : list Account.t)
| EVENT_VALIDATORS_CHANGED (validators : list Validator.t).

(** The fields of [Chain] the modelled methods read or write; [events]
    is the log of what the emitter has emitted so far. *)
Record Chain : Type := mkChain {
  dataAccess : DataAccess;
  events : list Event;
  slots : Slots;
  _lastBlock : Block;
  _networkIdentifier : Buffer;
  _blockRewardArgs : BlockRewardOptions;
  _genesisBlock : GenesisBlock;
  _defaultAccount : Account.t;
  _numberOfValidators : Z;
}.

(** The seed-reveal check of [verify.ts], which is not in the tree. *)
Class SeedReveal : Type :=
  isValidSeedReveal_ext : Header → StateStore → Z → bool.

Module ChainOps.
Section WithServices.
Context `{Codec} `{SeedReveal}.

Definition lastBlock (c : Chain) : Block := _lastBlock c.
Definition numberOfValidators (c : Chain) : Z := _numberOfValidators c.
Definition genesisBlock (c : Chain) : GenesisBlock := _genesisBlock c.

Definition update (c : Chain) (da : DataAccess) (ev : list Event)
    (last : Block) (n : Z) : Chain :=
  {| dataAccess := da; events := ev; slots := slots c; _lastBlock := last;
     _networkIdentifier := _networkIdentifier c;
     _blockRewardArgs := _blockRewardArgs c;
     _genesisBlock := _genesisBlock c; _defaultAccount := _defaultAccount c;
     _numberOfValidators := n |}.

Definition withDataAccess (c : Chain) (da : DataAccess) : Chain :=
  update c da (events c) (_lastBlock c) (_numberOfValidators c).

Definition emit (c : Chain) (e : Event) : Chain :=
  update c (dataAccess c) (events c ++ [e]) (_lastBlock c) (_numberOfValidators c).

Definition calculateDefaultReward (c : Chain) (height : Z) : Z :=
  BlockReward.calculateDefaultReward height (_blockRewardArgs c).

Definition isValidSeedReveal (c : Chain) (blockHeader : Header)
    (stateStore : StateStore) : bool :=
  isValidSeedReveal_ext blockHeader stateStore (numberOfValidators c).

Definition calculateExpectedReward (c : Chain) (blockHeader : Header)
    (stateStore : StateStore) : Z :=
  let defaultReward := calculateDefaultReward c (height blockHeader) in
  let isValid := isValidSeedReveal c blockHeader stateStore in
  if isValid then defaultReward else 0.

Definition newStateStore (c : Chain) (skipLastHeights : Z) : StateStore :=
  let fromHeight :=
    Z.max 0 (height (header (_lastBlock c)) - numberOfValidators c * 3 - skipLastHeights) in
  let toHeight := Z.max (height (header (_lastBlock c)) - skipLastHeights) 1 in
  let lastBlockHeaders :=
    DataAccessOps.getBlockHeadersByHeightBetween (dataAccess c) fromHeight toHeight in
  let lastBlockReward :=
    calculateDefaultReward c
      (match lastBlockHeaders !! 0%nat with
       | Some h => height h
       | None => 1
       end) in
  StateStoreOps.new (dataAccess c) (_networkIdentifier c) lastBlockHeaders
    lastBlockReward (_defaultAccount c).

Definition applyGenesisBlock (c : Chain) (block : GenesisBlock)
    (stateStore : StateStore) : Chain * StateStore :=
  let stateStore :=
    foldl (λ ss account, StateStoreOps.account_set ss (Account.address account) account)
          stateStore (accounts (asset (header block))) in
  let initialValidators :=
    map (λ address,
           {| Validator.address := address;
              Validator.minActiveHeight := height (header block) + 1;
              Validator.isConsensusParticipant := false |})
        (initDelegates (asset (header block))) in
  let stateStore :=
    StateStoreOps.consensus_set stateStore CONSENSUS_STATE_VALIDATORS_KEY
      (encodeValidators initialValidators) in
  (update c (dataAccess c) (events c) (_lastBlock c)
     (Z.of_nat (length (initDelegates (asset (header block))))),
   stateStore).

Definition saveBlock (c : Chain) (block : Block) (stateStore : StateStore)
    (finalizedHeight : Z) (removeFromTempTable : bool) : Result unit * Chain :=
  let da :=
    DataAccessOps.saveBlock (dataAccess c) block stateStore finalizedHeight
      removeFromTempTable in
  let da := DataAccessOps.addBlockHeader da (header block) in
  (Ok tt,
   update c da
     (events c ++ [EVENT_NEW_BLOCK block (StateStoreOps.account_getUpdated stateStore)])
     block (_numberOfValidators c)).

Definition removeBlock (c : Chain) (block : Block) (stateStore : StateStore)
    (saveTempBlock : bool) : Result unit * Chain :=
  if version (header block) =? version (header (genesisBlock c)) then
    (Throw "Cannot delete genesis block", c)
  else
    match DataAccessOps.getBlockByID (dataAccess c) (previousBlockID (header block)) with
    | Throw _ => (Throw "PreviousBlock is null", c)
    | Ok secondLastBlock =>
        match DataAccessOps.deleteBlock (dataAccess c) block stateStore saveTempBlock with
        | (Throw e, da) => (Throw e, withDataAccess c da)
        | (Ok updatedAccounts, da) =>
            let da := DataAccessOps.removeBlockHeader da (id (header block)) in
            (Ok tt,
             update c da (events c ++ [EVENT_DELETE_BLOCK block updatedAccounts])
               secondLastBlock (_numberOfValidators c))
        end
    end.

Definition getValidators (c : Chain) : list Validator.t :=
  match DataAccessOps.getConsensusState (dataAccess c) CONSENSUS_STATE_VALIDATORS_KEY with
  | None => []
  | Some validatorsBuffer => decodeValidators validatorsBuffer
  end.

Definition getValidator (c : Chain) (timestamp : Z) : option Validator.t :=
  let validators := getValidators c in
  let currentSlot := getSlotNumber (slots c) timestamp in
  js_index validators (js_rem currentSlot (Z.of_nat (length validators))).

Definition _getLastBootstrapHeight (c : Chain) : Z :=
  _numberOfValidators c * initRounds (asset (header (_genesisBlock c)))
  + height (header (_genesisBlock c)).

Definition nextValidatorOf (previousValidators : list Validator.t)
    (blockHeader : Header) (nextValidator : ValidatorInput.t) : Validator.t :=
  let previousInfo :=
    find (λ pv, bool_decide (Validator.address pv = ValidatorInput.address nextValidator))
         previousValidators in
  {| Validator.address := ValidatorInput.address nextValidator;
     Validator.isConsensusParticipant := ValidatorInput.isConsensusParticipant nextValidator;
     Validator.minActiveHeight :=
       match previousInfo with
       | Some pv => Validator.minActiveHeight pv
       | None => height blockHeader + 1
       end |}.

Definition setValidators (c : Chain) (validators : list ValidatorInput.t)
    (stateStore : StateStore) (blockHeader : Header)
    : Result unit * Chain * StateStore :=
  if _getLastBootstrapHeight c >? height blockHeader then
    (Ok tt, c, stateStore)
  else
    match StateStoreOps.consensus_get stateStore CONSENSUS_STATE_VALIDATORS_KEY with
    | (None, stateStore) =>
        (Throw "Previous validator set must exist", c, stateStore)
    | (Some validatorsBuffer, stateStore) =>
        let previousValidators := decodeValidators validatorsBuffer in
        let nextValidatorSet :=
          map (nextValidatorOf previousValidators blockHeader) validators in
        let encodedValidators := encodeValidators nextValidatorSet in
        let stateStore :=
          StateStoreOps.consensus_set stateStore CONSENSUS_STATE_VALIDATORS_KEY
            encodedValidators in
        (Ok tt, emit c (EVENT_VALIDATORS_CHANGED nextValidatorSet), stateStore)
    end.

(** [new Chain({ db, genesisBlock, blockTime, networkIdentifier,
    rewardDistance, rewardOffset, rewardMilestones, minBlockHeaderCache,
    maxBlockHeaderCache, ... })]: [db] stands for the persistent store the
    data access layer is created over, [defaultAccount] for the default
    of the account schemas. *)
Definition constructor (db : DataAccess) (genesisBlock : GenesisBlock)
    (defaultAccount : Account.t) (blockTime : Z) (networkIdentifier : Buffer)
    (rewardDistance rewardOffset : Z) (rewardMilestones : list Z)
    (minBlockHeaderCache maxBlockHeaderCache : Z) : Chain :=
  {| dataAccess :=
       {| blocks := blocks db; blockIDsByHeight := blockIDsByHeight db;
          tempBlocks := tempBlocks db; state := state db; diffs := diffs db;
          blocksCache := [];
          minBlockHeaderCache := minBlockHeaderCache;
          maxBlockHeaderCache := maxBlockHeaderCache |};
     events := [];
     slots := {| genesisBlockTimestamp := timestamp (header genesisBlock);
                 interval := blockTime |};
     _lastBlock := asBlock genesisBlock;
     _networkIdentifier := networkIdentifier;
     _blockRewardArgs :=
       {| distance := rewardDistance; rewardOffset := rewardOffset;
          milestones := rewardMilestones |};
     _genesisBlock := genesisBlock;
     _defaultAccount := defaultAccount;
     _numberOfValidators := -1 |}.

(** [genesisBlockExist(genesisBlock)], over the two reads it makes: a
    failure other than not-found is rethrown, the read by id first. *)
Definition genesisBlockExist (reads : HeaderReads) (genesisBlock : GenesisBlock)
    : Result bool :=
  match getBlockHeaderByID reads (id (header genesisBlock)) with
  | StorageFailure error => Throw error
  | matchingGenesisBlock =>
      match getLastBlockHeader reads with
      | StorageFailure error => Throw error
      | lastBlockHeader =>
          let defined {A : Type} (l : Lookup A) : bool :=
            match l with Found _ => true | _ => false end in
          if defined lastBlockHeader && negb (defined matchingGenesisBlock) then
            Throw "Genesis block does not match"
          else if negb (defined lastBlockHeader) && negb (defined matchingGenesisBlock) then
            Ok false
          else Ok true
      end
  end.

(** [[...blockHeaders].sort((a, b) => a.height - b.height)]: ascending
    by height, headers of equal height keeping their order. *)
Fixpoint insertByHeight (x : Header) (l : list Header) : list Header :=
  match l with
  | [] => [x]
  | y :: ys =>
      if height x <=? height y then x :: y :: ys else y :: insertByHeight x ys
  end.

Definition sortByHeight (l : list Header) : list Header :=
  foldr insertByHeight [] l.

(** [_cacheBlockHeaders(storageLastBlock)];
    [DEFAULT_MAX_BLOCK_HEADER_CACHE] of [constants.ts], which is not in
    the tree, is an argument. *)
Definition _cacheBlockHeaders (c : Chain) (DEFAULT_MAX_BLOCK_HEADER_CACHE : Z)
    (storageLastBlock : Block) : Chain :=
  let fromHeight :=
    Z.max (height (header storageLastBlock) - DEFAULT_MAX_BLOCK_HEADER_CACHE) 0 in
  let toHeight := height (header storageLastBlock) in
  let blockHeaders :=
    DataAccessOps.getBlockHeadersByHeightBetween (dataAccess c) fromHeight toHeight in
  let sortedBlockHeaders := sortByHeight blockHeaders in
  withDataAccess c
    (foldl DataAccessOps.addBlockHeader (dataAccess c) sortedBlockHeaders).

(** [init()], over what [dataAccess.getLastBlock()] settles to. *)
Definition init (c : Chain) (DEFAULT_MAX_BLOCK_HEADER_CACHE : Z)
    (getLastBlock : Lookup Block) : Result unit * Chain :=
  match getLastBlock with
  | Found storageLastBlock =>
      let c :=
        if negb (height (header storageLastBlock) =? height (header (genesisBlock c)))
        then _cacheBlockHeaders c DEFAULT_MAX_BLOCK_HEADER_CACHE storageLastBlock
        else c in
      let validators := getValidators c in
      (Ok tt,
       update c (dataAccess c) (events c) storageLastBlock
         (Z.of_nat (length validators)))
  | _ => (Throw "Failed to load last block", c)
  end.

End WithServices.
End ChainOps.

(** ** Proof-of-misbehavior handler *)

Module Pom.

Definition MAX_PUNISHABLE_BLOCK_HEIGHT_DIFFERENCE : Z := 260000.
Definition MAX_POM_HEIGHTS : nat := 5.

(** The dpos utilities the handler calls, which are not in the tree:
    signature verification of a header against the network identifier,
    the address of a public key, and the already-punished check of the
    accused's strike list at the reporting height. *)
Class DposUtils : Type := mkDposUtils {
  validateSignature : Buffer → Buffer → Header → Buffer → bool;
  getAddressFromPublicKey : Buffer → Buffer;
  isCurrentlyPunished : Z → list Z → bool;
}.

(** The reducer handler: what [token:getBalance] and
    [token:getMinRemainingBalance] answer. *)
Record ReducerHandler : Type := mkReducerHandler {
  getBalance : Buffer → Z;
  getMinRemainingBalance : Z;
}.

(** An invocation the handler makes on the reducer handler. *)
Inductive Invocation : Type :=
| TokenCredit (address : Buffer) (amount : Z).

Record ApplyContext : Type := mkApplyContext {
  senderAddress : Buffer;
  header1 : Header;
  header2 : Header;
  stateStore : StateStore;
  reducerHandler : ReducerHandler;
}.


Section WithServices.
Context `{Codec} `{DposUtils}.

(** Modelled from the spec: the amount transferred to the reporter,
    [min(lastBlockReward, accusedBalance − minRemainingBalance)] floored
    at 0, and 0 when reporter and accused are the same address. *)
Definition rewardAmount (ctx : ApplyContext) (delegateAddress : Buffer) : Z :=
  if bool_decide (senderAddress ctx = delegateAddress) then 0
  else
    let subtractable :=
      getBalance (reducerHandler ctx) delegateAddress
      - getMinRemainingBalance (reducerHandler ctx) in
    Z.max 0 (Z.min (lastBlockReward (stateStore ctx)) subtractable).

(** Modelled from the spec: the strike; the reporting height + 1 is
    appended, and the banned flag is set when the list reaches
    [MAX_POM_HEIGHTS] entries. *)
Definition punish (a : Account.t) (currentHeight : Z) : Account.t :=
  let pomHeights := Account.pomHeights a ++ [currentHeight] in
  {| Account.address := Account.address a;
     Account.balance := Account.balance a;
     Account.username := Account.username a;
     Account.pomHeights := pomHeights;
     Account.isBanned :=
       if (length pomHeights =? MAX_POM_HEIGHTS)%nat then true
       else Account.isBanned a |}.

(** Modelled from the spec: [PomTransactionAsset.apply] of
    [pom_transaction_asset.ts], which is not in the tree (its unit test
    is): the apply-time checks in the order of the design document, then
    the reward transfer and the strike. *)
Definition apply (ctx : ApplyContext)
    : Result unit * StateStore * list Invocation :=
  let store := stateStore ctx in
  match lastBlockHeaders store !! 0%nat with
  | None => (Throw "Cannot read property 'height' of undefined", store, [])
  | Some last =>
    let currentHeight := height last + 1 in
    if Z.abs (height (header1 ctx) - currentHeight)
         >=? MAX_PUNISHABLE_BLOCK_HEIGHT_DIFFERENCE then
      (Throw "Difference between header1.height and current height must be less than 260000.",
       store, [])
    else if Z.abs (height (header2 ctx) - currentHeight)
              >=? MAX_PUNISHABLE_BLOCK_HEIGHT_DIFFERENCE then
      (Throw "Difference between header2.height and current height must be less than 260000.",
       store, [])
    else if negb (validateSignature (generatorPublicKey (header1 ctx))
                    (signature (header1 ctx)) (header1 ctx) (networkIdentifier store)) then
      (Throw "Invalid block signature for header 1", store, [])
    else if negb (validateSignature (generatorPublicKey (header2 ctx))
                    (signature (header2 ctx)) (header2 ctx) (networkIdentifier store)) then
      (Throw "Invalid block signature for header 2", store, [])
    else
      let delegateAddress := getAddressFromPublicKey (generatorPublicKey (header1 ctx)) in
      match StateStoreOps.account_get store delegateAddress with
      | (None, store) => (Throw "NotFound", store, [])
      | (Some delegateAccount, store) =>
        if bool_decide (Account.username delegateAccount = "") then
          (Throw "Account is not a delegate", store, [])
        else if Account.isBanned delegateAccount then
          (Throw "Cannot apply proof-of-misbehavior. Delegate is already banned.",
           store, [])
        else if isCurrentlyPunished currentHeight (Account.pomHeights delegateAccount) then
          (Throw "Cannot apply proof-of-misbehavior. Delegate is already punished.",
           store, [])
        else
          let reward := rewardAmount ctx delegateAddress in
          let store :=
            StateStoreOps.account_set store delegateAddress
              (punish delegateAccount currentHeight) in
          (Ok tt, store, [TokenCredit (senderAddress ctx) reward])
      end
  end.

End WithServices.
End Pom.

(** ** Forger plugin database *)

Module ForgerDB.

(** The key-value store of lisk-db: [get] rejects with the not-found kind
    on a key that is not stored. *)
Abbreviation KVStore := (gmap string Buffer).

Definition db_get (db : KVStore) (key : string) : Result Buffer :=
  match db !! key with
  | Some value => Ok value
  | None => Throw "NotFound"
  end.

Record ForgetSyncInfo : Type := mkForgetSyncInfo {
  syncUptoHeight : Z;
}.

Record ForgerInfo (Voter : Type) : Type := mkForgerInfo {
  totalProducedBlocks : Z;
  totalReceivedFees : Z;
  totalReceivedRewards : Z;
  votesReceived : list Voter;
}.
Arguments mkForgerInfo {Voter}.
Arguments totalProducedBlocks {Voter}.
Arguments totalReceivedFees {Voter}.
Arguments totalReceivedRewards {Voter}.
Arguments votesReceived {Voter}.

Section WithSchemas.
(** The keys of [constants.ts] and the codec at the two schemas of
    [schema.ts], none of which is in the tree; [decode] may throw. *)
Context {Voter : Type}.
Variable DB_KEY_FORGER_INFO : string.
Variable DB_KEY_FORGER_SYNC_INFO : string.
Variable encodeSyncInfo : ForgetSyncInfo → Buffer.
Variable decodeSyncInfo : Buffer → Result ForgetSyncInfo.
Variable encodeForgerInfo : ForgerInfo Voter → Buffer.
Variable decodeForgerInfo : Buffer → Result (ForgerInfo Voter).

Definition forgerInfoKey (forgerAddress : string) : string :=
  DB_KEY_FORGER_INFO +:+ ":" +:+ forgerAddress.

Definition getForgerSyncInfo (db : KVStore) : Result ForgetSyncInfo :=
  match db_get db DB_KEY_FORGER_SYNC_INFO with
  | Ok encodedSyncInfo =>
      match decodeSyncInfo encodedSyncInfo with
      | Ok info => Ok info
      | Throw _ => Ok {| syncUptoHeight := 0 |}
      end
  | Throw _ => Ok {| syncUptoHeight := 0 |}
  end.

Definition setForgerSyncInfo (db : KVStore) (blockHeight : Z) : KVStore :=
  let encodedSyncInfo := encodeSyncInfo {| syncUptoHeight := blockHeight |} in
  <[DB_KEY_FORGER_SYNC_INFO := encodedSyncInfo]> db.

Definition setForgerInfo (db : KVStore) (forgerAddress : string)
    (forgerInfo : ForgerInfo Voter) : KVStore :=
  let encodedForgerInfo := encodeForgerInfo forgerInfo in
  <[forgerInfoKey forgerAddress := encodedForgerInfo]> db.

Definition getForgerInfo (db : KVStore) (forgerAddress : string)
    : Result (ForgerInfo Voter) :=
  match db_get db (forgerInfoKey forgerAddress) with
  | Throw _ =>
      Ok {| totalProducedBlocks := 0; totalReceivedFees := 0;
            totalReceivedRewards := 0; votesReceived := [] |}
  | Ok forgerInfo => decodeForgerInfo forgerInfo
  end.

End WithSchemas.
End ForgerDB.

(** ** Specification predicates *)

(** What [setValidators] owes a candidate: the written entry carries the
    candidate's address and participation flag; its [minActiveHeight] is
    [header.height + 1] when no entry of the previous set has the
    address, and otherwise that of the first previous entry with the
    address. *)
Definition rotatedEntry (previousValidators : list Validator.t)
    (blockHeader : Header) (candidate : ValidatorInput.t) (v : Validator.t) : Prop :=
  Validator.address v = ValidatorInput.address candidate
  ∧ Validator.isConsensusParticipant v = ValidatorInput.isConsensusParticipant candidate
  ∧ ((∀ pv, pv ∈ previousValidators →
        Validator.address pv ≠ ValidatorInput.address candidate) →
     Validator.minActiveHeight v = height blockHeader + 1)
  ∧ (∀ (i : nat) pv,
       previousValidators !! i = Some pv →
       Validator.address pv = ValidatorInput.address candidate →
       (∀ (j : nat) pv', (j < i)%nat → previousValidators !! j = Some pv' →
          Validator.address pv' ≠ ValidatorInput.address candidate) →
       Validator.minActiveHeight v = Validator.minActiveHeight pv).

(** ** Stores made by the chain's factory *)

(** The operations of the state store ([account.get], [account.set],
    [consensus.get], [consensus.set]) as data, and a store after a
    sequence of them. *)
Inductive StoreOp : Type :=
| OpAccountGet (address : Buffer)
| OpAccountSet (address : Buffer) (account : Account.t)
| OpConsensusGet (key : string)
| OpConsensusSet (key : string) (value : Buffer).

Definition runOp `{Codec} (ss : StateStore) (op : StoreOp) : StateStore :=
  match op with
  | OpAccountGet address => (StateStoreOps.account_get ss address).2
  | OpAccountSet address account => StateStoreOps.account_set ss address account
  | OpConsensusGet key => (StateStoreOps.consensus_get ss key).2
  | OpConsensusSet key value => StateStoreOps.consensus_set ss key value
  end.

Definition runOps `{Codec} (ss : StateStore) (ops : list StoreOp) : StateStore :=
  foldl runOp ss ops.

Definition isDirty (ss : StateStore) (k : StateKey) : Prop :=
  match k with
  | AccountKey address => address ∈ accountUpdated ss
  | ConsensusKey key => key ∈ consensusUpdated ss
  end.

Definition initialOf (ss : StateStore) (k : StateKey) : option Buffer :=
  match k with
  | AccountKey address => accountInitial ss !! address
  | ConsensusKey key => consensusInitial ss !! key
  end.

Definition hasOverlay (ss : StateStore) (k : StateKey) : Prop :=
  match k with
  | AccountKey address => is_Some (accountData ss !! address)
  | ConsensusKey key => is_Some (consensusData ss !! key)
  end.


(** Every key the store wrote without having read it was not persisted. *)
Definition readBeforeWrite (ss : StateStore) : Prop :=
  Forall (λ address, accountInitial ss !! address = None →
                     state (ss_dataAccess ss) !! AccountKey address = None)
         (accountUpdated ss)
  ∧ Forall (λ key, consensusInitial ss !! key = None →
                   state (ss_dataAccess ss) !! ConsensusKey key = None)
           (consensusUpdated ss).

(** Every write in a sequence of operations comes after a read of the
    same key; [seen] are the keys read before the sequence. *)
Fixpoint readsFirst (seen : list StateKey) (ops : list StoreOp) : Prop :=
  match ops with
  | [] => True
  | OpAccountGet address :: ops => readsFirst (AccountKey address :: seen) ops
  | OpAccountSet address _ :: ops => AccountKey address ∈ seen ∧ readsFirst seen ops
  | OpConsensusGet key :: ops => readsFirst (ConsensusKey key :: seen) ops
  | OpConsensusSet key _ :: ops => ConsensusKey key ∈ seen ∧ readsFirst seen ops
  end.

(** The store has an overlay entry only for keys it read through or
    wrote. *)
Definition overlayKnown (ss : StateStore) : Prop :=
  ∀ k, hasOverlay ss k → isDirty ss k ∨ is_Some (initialOf ss k).

(** Of the keys read so far and the dirty ones, those without a recorded
    value are not persisted. *)
Definition unrecordedAbsent (seen : list StateKey) (ss : StateStore) : Prop :=
  ∀ k, k ∈ seen ∨ isDirty ss k → initialOf ss k = None →
       state (ss_dataAccess ss) !! k = None.


(** ** Fixtures

    A small devnet: a one-byte-per-field codec, a genesis block with two
    initial delegates, and two forged blocks on top of it. *)

Module Fixture.

Definition byteOfZ (z : Z) : byte :=
  default "000"%byte (Byte.of_N (Z.to_N (z mod 256))).
Definition zOfByte (b : byte) : Z := Z.of_N (Byte.to_N b).
Definition byteOfBool (b : bool) : byte := if b then "001"%byte else "000"%byte.
Definition boolOfByte (b : byte) : bool := negb (bool_decide (b = "000"%byte)).

Fixpoint decodeValidatorList (bytes : Buffer) : list Validator.t :=
  match bytes with
  | a :: h :: f :: rest =>
      {| Validator.address := [a]; Validator.minActiveHeight := zOfByte h;
         Validator.isConsensusParticipant := boolOfByte f |}
      :: decodeValidatorList rest
  | _ => []
  end.

Definition codec : Codec :=
  {| encodeAccount a :=
       Account.address a ++ [byteOfZ (Account.balance a); byteOfBool (Account.isBanned a)]
       ++ map byteOfZ (Account.pomHeights a);
     decodeAccount bytes :=
       match bytes with
       | a :: b :: f :: hs =>
           Account.mk [a] (zOfByte b) "delegate" (map zOfByte hs) (boolOfByte f)
       | _ => Account.mk [] 0 "" [] false
       end;
     encodeValidators vs :=
       flat_map (λ v, Validator.address v
                      ++ [byteOfZ (Validator.minActiveHeight v);
                          byteOfBool (Validator.isConsensusParticipant v)]) vs;
     decodeValidators := decodeValidatorList |}.

(** The seed reveal of a header counts as valid when it is not empty. *)
Definition seedReveal : SeedReveal :=
  λ h _ _, match asset h with
           | ForgingAsset _ _ (_ :: _) => true
           | _ => false
           end.

Definition addr1 : Buffer := ["001"%byte].
Definition addr2 : Buffer := ["002"%byte].
Definition addr3 : Buffer := ["003"%byte].

Definition account1 : Account.t := Account.mk addr1 100 "delegate" [] false.
Definition account2 : Account.t := Account.mk addr2 50 "delegate" [] false.

Definition genesis : GenesisBlock :=
  {| header :=
       {| id := ["160"%byte]; version := 0; timestamp := 1000; height := 0;
          previousBlockID := []; transactionRoot := []; generatorPublicKey := [];
          reward := 0;
          asset := {| accounts := [account1; account2];
                      initDelegates := [addr1; addr2]; initRounds := 3 |};
          signature := [] |};
     payload := [] |}.

Definition forged (blockID previous : Buffer) (v h : Z) : Block :=
  {| header :=
       {| id := blockID; version := v; timestamp := 1000 + 10 * h; height := h;
          previousBlockID := previous; transactionRoot := [];
          generatorPublicKey := addr1; reward := 0;
          asset := ForgingAsset 0 0 ["007"%byte]; signature := [] |};
     payload := [] |}.

Definition block1 : Block := forged ["161"%byte] ["160"%byte] 2 1.
Definition block2 : Block := forged ["162"%byte] ["161"%byte] 2 2.
(** A block on top of [block1] that is not the genesis block but carries
    its version, and an asset of the genesis schema. *)
Definition block2v0 : Block :=
  {| header :=
       {| id := ["163"%byte]; version := 0; timestamp := 1020; height := 2;
          previousBlockID := ["161"%byte]; transactionRoot := [];
          generatorPublicKey := addr1; reward := 0;
          asset := GenesisAsset {| accounts := []; initDelegates := []; initRounds := 0 |};
          signature := [] |};
     payload := [] |}.

Definition validators0 : list Validator.t :=
  [Validator.mk addr1 1 false; Validator.mk addr2 1 false].

(** The store after the genesis block and [block1] were committed. *)
Definition dataAccess1 : DataAccess :=
  {| blocks := <[["161"%byte] := block1]> {[ ["160"%byte] := asBlock genesis ]};
     blockIDsByHeight := <[1 := ["161"%byte]]> {[ 0 := ["160"%byte] ]};
     tempBlocks := ∅;
     state :=
       <[ConsensusKey CONSENSUS_STATE_VALIDATORS_KEY := @encodeValidators codec validators0]>
         (<[AccountKey addr1 := @encodeAccount codec account1]>
            {[ AccountKey addr2 := @encodeAccount codec account2 ]});
     diffs := ∅;
     blocksCache := [header (asBlock genesis); header block1];
     minBlockHeaderCache := 2; maxBlockHeaderCache := 4 |}.

Definition chain1 : Chain :=
  {| dataAccess := dataAccess1; events := [];
     slots := {| genesisBlockTimestamp := 1000; interval := 10 |};
     _lastBlock := block1; _networkIdentifier := [];
     _blockRewardArgs := BlockReward.defaultRewards;
     _genesisBlock := genesis;
     _defaultAccount := Account.mk [] 0 "" [] false;
     _numberOfValidators := 2 |}.

(** The headers just below and at the bootstrap height of [chain1]
    (2 validators × 3 rounds + genesis height 0 = 6). *)
Definition header5 : Header := header (forged ["165"%byte] ["164"%byte] 2 5).
Definition header6 : Header := header (forged ["166"%byte] ["165"%byte] 2 6).

Definition candidates : list ValidatorInput.t :=
  [ValidatorInput.mk addr2 true; ValidatorInput.mk addr3 false].

(** Dpos utilities for the fixture: every signature verifies, a public
    key is its own address, and a delegate counts as punished when it
    carries a strike at the reporting height. *)
Definition dposUtils : Pom.DposUtils :=
  {| Pom.validateSignature := λ _ _ _ _, true;
     Pom.getAddressFromPublicKey := λ publicKey, publicKey;
     Pom.isCurrentlyPunished := λ h strikes, bool_decide (h ∈ strikes) |}.

(** The setting of the unit test of the handler: last block 8760000,
    last block reward 69 LSK, an accused delegate with four strikes. *)
Definition pomStore : StateStore :=
  let tip := header (forged ["170"%byte] ["169"%byte] 2 8760000) in
  let ss := StateStoreOps.new dataAccess1 [] [tip] 6900000000
              (Account.mk [] 0 "" [] false) in
  StateStoreOps.account_set ss addr1
    (Account.mk addr1 0 "misBehavingDelegate" [500; 1000; 2000; 4550] false).

Definition pomContext (sender : Buffer) (accusedBalance : Z) : Pom.ApplyContext :=
  {| Pom.senderAddress := sender;
     Pom.header1 := header (forged ["171"%byte] [] 2 (8760000 - 768));
     Pom.header2 := header (forged ["172"%byte] [] 2 (8760000 - 768 + 15));
     Pom.stateStore := pomStore;
     Pom.reducerHandler :=
       {| Pom.getBalance := λ _, accusedBalance;
          Pom.getMinRemainingBalance := 5000000 |} |}.

(** A block whose previous block is not stored. *)
Definition orphan : Block := forged ["180"%byte] ["179"%byte] 2 2.

(** A store without any entry. *)
Definition emptyStore : DataAccess :=
  {| blocks := ∅; blockIDsByHeight := ∅; tempBlocks := ∅; state := ∅; diffs := ∅;
     blocksCache := []; minBlockHeaderCache := 2; maxBlockHeaderCache := 4 |}.

(** The chain as constructed over [dataAccess1], before [init]. *)
Definition chain0 : Chain :=
  ChainOps.constructor dataAccess1 genesis (Account.mk [] 0 "" [] false) 10 []
    3000000 2160 [500000000; 400000000; 300000000; 200000000; 100000000] 2 4.

(** The forger plugin's keys and a one-byte codec of its two schemas. *)
Definition forgerInfoKeyPrefix : string := "forger:info".
Definition forgerSyncKey : string := "forger:info:sync".

Definition encodeSync (info : ForgerDB.ForgetSyncInfo) : Buffer :=
  [byteOfZ (ForgerDB.syncUptoHeight info)].
Definition decodeSync (bytes : Buffer) : Result ForgerDB.ForgetSyncInfo :=
  match bytes with
  | [b] => Ok {| ForgerDB.syncUptoHeight := zOfByte b |}
  | _ => Throw "Invalid buffer length"
  end.
Definition encodeForger (info : ForgerDB.ForgerInfo Buffer) : Buffer :=
  [byteOfZ (ForgerDB.totalProducedBlocks info);
   byteOfZ (ForgerDB.totalReceivedFees info);
   byteOfZ (ForgerDB.totalReceivedRewards info)].
Definition decodeForger (bytes : Buffer) : Result (ForgerDB.ForgerInfo Buffer) :=
  match bytes with
  | [p; f; r] => Ok (ForgerDB.mkForgerInfo (zOfByte p) (zOfByte f) (zOfByte r) [])
  | _ => Throw "Invalid buffer length"
  end.

(** A forger database with an undecodable sync entry and an undecodable
    entry for the forger ["aa"]. *)
Definition corruptForgerDB : gmap string Buffer :=
  <[forgerSyncKey := ["001"%byte; "002"%byte]]>
    {[ ForgerDB.forgerInfoKey forgerInfoKeyPrefix "aa" := ["001"%byte] ]}.



(** The same writes without the reads. *)
Definition blindOps2 : list StoreOp :=
  [OpAccountSet addr1 (Account.mk addr1 70 "delegate" [] false);
   OpAccountSet addr3 (Account.mk addr3 30 "" [] false);
   OpConsensusSet CONSENSUS_STATE_VALIDATORS_KEY
     (@encodeValidators codec [Validator.mk addr2 1 false; Validator.mk addr1 1 false])].

(** A state store for the block on top of [block1]: it debits [addr1],
    creates [addr3] and rotates the validator set, all three written
    without being read first. *)
Definition store1 : StateStore :=
  let ss := ChainOps.newStateStore chain1 0 in
  let ss := StateStoreOps.account_set ss addr1 (Account.mk addr1 70 "delegate" [] false) in
  let ss := StateStoreOps.account_set ss addr3 (Account.mk addr3 30 "" [] false) in
  StateStoreOps.consensus_set ss CONSENSUS_STATE_VALIDATORS_KEY
    (@encodeValidators codec [Validator.mk addr2 1 false; Validator.mk addr1 1 false]).

End Fixture.

(** * Properties *)

(** ** Commit and revert of a diff *)

Section DiffFacts.
Context {K : Type} `{Countable K} {V : Type}.
Implicit Types (m : gmap K V) (ws : list (K * V)) (i : K).








End DiffFacts.

(** ** Reward schedule *)

Lemma descending_nth (ms : list Z) :
  BlockReward.descending ms →
  ∀ i j : nat, (i ≤ j < length ms)%nat → nth i ms 0 >= nth j ms 0.
Proof.
  induction 1 as [|a l Hl IH Ha]; intros i j [Hij Hj]; simpl in *; [lia|].
  destruct i as [|i], j as [|j]; try lia.
  - assert (Hin : In (nth j l 0) l) by (apply nth_In; lia).
    rewrite Forall_forall in Ha. apply Ha. by apply list_elem_of_In.
  - apply IH. lia.
Qed.

Lemma nth_pred_length_last (l : list Z) :
  nth (length l - 1) l 0 = List.last l 0.
Proof.
  induction l as [|a [|b l] IH]; [done..|].
  change (List.last (a :: b :: l) 0) with (List.last (b :: l) 0).
  rewrite <- IH. simpl. by rewrite Nat.sub_0_r.
Qed.

Lemma calculateMilestone_mono (args : BlockRewardOptions) (h1 h2 : Z) :
  0 < distance args → rewardOffset args <= h1 → h1 <= h2 →
  0 <= BlockReward.calculateMilestone h1 args
       <= BlockReward.calculateMilestone h2 args
  ∨ milestones args = [].
Proof.
  intros Hd H1 H12. unfold BlockReward.calculateMilestone.
  destruct (milestones args) as [|m ms] eqn:Hm; [by right|left].
  cbn zeta. set (last := Z.of_nat (length (m :: ms)) - 1).
  assert (0 <= last) by (unfold last; simpl; lia).
  assert (0 <= (h1 - rewardOffset args) / distance args)
    by (apply Z.div_pos; lia).
  assert ((h1 - rewardOffset args) / distance args
          <= (h2 - rewardOffset args) / distance args)
    by (apply Z.div_le_mono; lia).
  repeat match goal with |- context [?a >? ?b] =>
    destruct (Z.gtb_spec a b) end; lia.
Qed.

Lemma calculateMilestone_segment (args : BlockRewardOptions) (k h : Z) :
  0 < distance args →
  rewardOffset args + k * distance args <= h
    < rewardOffset args + (k + 1) * distance args →
  (h - rewardOffset args) / distance args = k.
Proof.
  intros Hd Hh. symmetry. apply Z.div_unique with (h - rewardOffset args - k * distance args); lia.
Qed.

(** C3, as amended.  Below [rewardOffset] the default reward is 0; from
    [rewardOffset] on it is non-increasing in the height when the
    milestone list is descending; it is constant on every segment of
    [rewardDistance] blocks after the offset; and from the start of the
    last milestone's segment on it stays at the last milestone value. *)
Theorem calculateDefaultReward_schedule (c : Chain) :
  let args := _blockRewardArgs c in
  0 < distance args →
  BlockReward.descending (milestones args) →
  (∀ h, h < rewardOffset args → ChainOps.calculateDefaultReward c h = 0)
  ∧ (∀ h1 h2, rewardOffset args <= h1 → h1 <= h2 →
       ChainOps.calculateDefaultReward c h1 >= ChainOps.calculateDefaultReward c h2)
  ∧ (∀ k h1 h2, 0 <= k →
       rewardOffset args + k * distance args <= h1
         < rewardOffset args + (k + 1) * distance args →
       rewardOffset args + k * distance args <= h2
         < rewardOffset args + (k + 1) * distance args →
       ChainOps.calculateDefaultReward c h1 = ChainOps.calculateDefaultReward c h2)
  ∧ (∀ h, rewardOffset args
            + (Z.of_nat (length (milestones args)) - 1) * distance args <= h →
       ChainOps.calculateDefaultReward c h = List.last (milestones args) 0).
Proof.
  intros args Hd Hdesc.
  unfold ChainOps.calculateDefaultReward, BlockReward.calculateDefaultReward.
  fold args. repeat split.
  - intros h Hh. destruct (Z.ltb_spec h (rewardOffset args)); [done|lia].
  - intros h1 h2 H1 H12.
    destruct (Z.ltb_spec h1 (rewardOffset args)); [lia|].
    destruct (Z.ltb_spec h2 (rewardOffset args)); [lia|].
    destruct (calculateMilestone_mono args h1 h2 Hd H1 H12) as [Hm|Hm].
    + assert (Hb : BlockReward.calculateMilestone h2 args
                   <= Z.of_nat (length (milestones args)) - 1).
      { unfold BlockReward.calculateMilestone. cbn zeta.
        match goal with |- context [?a >? ?b] =>
          destruct (Z.gtb_spec a b) end; lia. }
      apply descending_nth; [done|]. lia.
    + rewrite Hm. destruct (Z.to_nat _), (Z.to_nat _); simpl; lia.
  - intros k h1 h2 Hk Hh1 Hh2.
    destruct (Z.ltb_spec h1 (rewardOffset args)); [nia|].
    destruct (Z.ltb_spec h2 (rewardOffset args)); [nia|].
    unfold BlockReward.calculateMilestone.
    rewrite (calculateMilestone_segment args k h1),
            (calculateMilestone_segment args k h2) by done.
    done.
  - intros h Hh.
    destruct (milestones args) as [|m ms] eqn:Hm.
    { destruct (Z.ltb_spec h (rewardOffset args)); [done|].
      destruct (Z.to_nat _); done. }
    assert (Hlen : 0 <= Z.of_nat (length (m :: ms)) - 1) by (simpl; lia).
    destruct (Z.ltb_spec h (rewardOffset args)); [nia|].
    unfold BlockReward.calculateMilestone. rewrite Hm. cbn zeta.
    assert (Hloc : Z.of_nat (length (m :: ms)) - 1
                   <= (h - rewardOffset args) / distance args).
    { apply Z.div_le_lower_bound; lia. }
    assert (Hidx : Z.to_nat
              (if (h - rewardOffset args) / distance args
                  >? Z.of_nat (length (m :: ms)) - 1
               then Z.of_nat (length (m :: ms)) - 1
               else (h - rewardOffset args) / distance args)
            = (length (m :: ms) - 1)%nat).
    { match goal with |- context [?a >? ?b] =>
        destruct (Z.gtb_spec a b) end; lia. }
    rewrite Hidx. apply nth_pred_length_last.
Qed.

Lemma calculateDefaultReward_schedule_witness :
  let c := Fixture.chain1 in
  let args := _blockRewardArgs c in
  (∀ h, h < rewardOffset args → ChainOps.calculateDefaultReward c h = 0)
  ∧ (∀ h1 h2, rewardOffset args <= h1 → h1 <= h2 →
       ChainOps.calculateDefaultReward c h1 >= ChainOps.calculateDefaultReward c h2)
  ∧ (∀ k h1 h2, 0 <= k →
       rewardOffset args + k * distance args <= h1
         < rewardOffset args + (k + 1) * distance args →
       rewardOffset args + k * distance args <= h2
         < rewardOffset args + (k + 1) * distance args →
       ChainOps.calculateDefaultReward c h1 = ChainOps.calculateDefaultReward c h2)
  ∧ (∀ h, rewardOffset args
            + (Z.of_nat (length (milestones args)) - 1) * distance args <= h →
       ChainOps.calculateDefaultReward c h = List.last (milestones args) 0).
Proof.
  apply (calculateDefaultReward_schedule Fixture.chain1).
  - reflexivity.
  - repeat constructor; discriminate.
Defined.

(** The scenario of the design document: offset 2160, distance 3000000. *)
Example calculateDefaultReward_scenario :
  ChainOps.calculateDefaultReward Fixture.chain1 100 = 0
  ∧ ChainOps.calculateDefaultReward Fixture.chain1 2161 = 500000000.
Proof. split; reflexivity. Qed.

(** C3 as stated fails: the reward is not non-increasing over all
    heights, since it rises from 0 to the first milestone at
    [rewardOffset]. *)
Lemma calculateDefaultReward_not_monotone :
  ¬ (∀ h1 h2, h1 <= h2 →
       ChainOps.calculateDefaultReward Fixture.chain1 h1
       >= ChainOps.calculateDefaultReward Fixture.chain1 h2).
Proof.
  intros Hmono. specialize (Hmono 100 2161).
  destruct calculateDefaultReward_scenario as [H100 H2161].
  rewrite H100, H2161 in Hmono. lia.
Qed.

(** C4.  The expected reward of a header is the default reward of its
    height when the seed-reveal check passes, and 0 when it fails. *)
Theorem calculateExpectedReward_spec `{SeedReveal} (c : Chain)
    (blockHeader : Header) (stateStore : StateStore) :
  (ChainOps.isValidSeedReveal c blockHeader stateStore = true →
     ChainOps.calculateExpectedReward c blockHeader stateStore
     = ChainOps.calculateDefaultReward c (height blockHeader))
  ∧ (ChainOps.isValidSeedReveal c blockHeader stateStore = false →
       ChainOps.calculateExpectedReward c blockHeader stateStore = 0).
Proof.
  unfold ChainOps.calculateExpectedReward.
  split; intros ->; reflexivity.
Qed.

Lemma calculateExpectedReward_spec_witness :
  let c := Fixture.chain1 in
  let store := @ChainOps.newStateStore c 0 in
  @ChainOps.calculateExpectedReward Fixture.seedReveal c (header Fixture.block1) store
  = ChainOps.calculateDefaultReward c 1
  ∧ @ChainOps.calculateExpectedReward Fixture.seedReveal c
      (header (asBlock Fixture.genesis)) store = 0.
Proof.
  intros c store. split.
  - apply (proj1 (@calculateExpectedReward_spec Fixture.seedReveal c
                    (header Fixture.block1) store)). reflexivity.
  - apply (proj2 (@calculateExpectedReward_spec Fixture.seedReveal c
                    (header (asBlock Fixture.genesis)) store)). reflexivity.
Defined.

(** ** Removing a block: the genesis guard *)

(** C8.  The guard of [removeBlock] compares header versions: for every
    block whose version is that of the genesis block, the call throws
    'Cannot delete genesis block' and leaves the chain (tip, storage,
    header cache, emitted events) as it was. *)
Theorem removeBlock_genesis_version `{Codec} (c : Chain) (block : Block)
    (stateStore : StateStore) (saveTempBlock : bool) :
  version (header block) = version (header (ChainOps.genesisBlock c)) →
  ChainOps.removeBlock c block stateStore saveTempBlock
  = (Throw "Cannot delete genesis block", c).
Proof.
  intros Hv. unfold ChainOps.removeBlock. rewrite Hv, Z.eqb_refl. reflexivity.
Qed.

Lemma removeBlock_genesis_version_witness :
  id (header Fixture.block2v0) ≠ id (header Fixture.genesis)
  ∧ @ChainOps.removeBlock Fixture.codec Fixture.chain1 Fixture.block2v0
      (ChainOps.newStateStore Fixture.chain1 0) false
    = (Throw "Cannot delete genesis block", Fixture.chain1).
Proof.
  split; [discriminate|].
  apply (@removeBlock_genesis_version Fixture.codec). reflexivity.
Defined.

(** C2.  [removeBlock] called with the genesis block throws, whatever the
    state, and nothing is loaded, reverted, dropped from the cache or
    emitted: the chain is returned as it was. *)
Theorem removeBlock_genesis `{Codec} (c : Chain) (stateStore : StateStore)
    (saveTempBlock : bool) :
  ChainOps.removeBlock c (asBlock (ChainOps.genesisBlock c)) stateStore saveTempBlock
  = (Throw "Cannot delete genesis block", c).
Proof.
  unfold ChainOps.removeBlock.
  change (version (header (asBlock (ChainOps.genesisBlock c))))
    with (version (header (ChainOps.genesisBlock c))).
  rewrite Z.eqb_refl. reflexivity.
Qed.

(** ** Commit followed by revert *)

#[local] Arguments revertDiff : simpl never.
#[local] Arguments applyWrites : simpl never.


Lemma elem_of_markDirty {K : Type} `{EqDecision K} (k k' : K) (dirty : list K) :
  k' ∈ StateStoreOps.markDirty k dirty ↔ k' = k ∨ k' ∈ dirty.
Proof.
  unfold StateStoreOps.markDirty. destruct (decide (k ∈ dirty)) as [Hin|Hin].
  - split; [by right|]. intros [ -> |?]; done.
  - rewrite elem_of_app, list_elem_of_singleton. tauto.
Qed.




Lemma isDirty_account_set (ss : StateStore) (address : Buffer) (account : Account.t)
    (k : StateKey) :
  isDirty (StateStoreOps.account_set ss address account) k
  ↔ k = AccountKey address ∨ isDirty ss k.
Proof.
  destruct k as [a|x]; cbn.
  - rewrite elem_of_markDirty. split.
    + intros [ -> |?]; [by left|by right].
    + intros [[= ->]|?]; [by left|by right].
  - split; [by right|]. intros [?|?]; done.
Qed.

Lemma isDirty_consensus_set (ss : StateStore) (key : string) (value : Buffer)
    (k : StateKey) :
  isDirty (StateStoreOps.consensus_set ss key value) k
  ↔ k = ConsensusKey key ∨ isDirty ss k.
Proof.
  destruct k as [a|x]; cbn.
  - split; [by right|]. intros [?|?]; done.
  - rewrite elem_of_markDirty. split.
    + intros [ -> |?]; [by left|by right].
    + intros [[= ->]|?]; [by left|by right].
Qed.











Lemma runOp_readsFirst `{Codec} (ss : StateStore) (seen : list StateKey) (op : StoreOp) :
  overlayKnown ss → unrecordedAbsent seen ss →
  match op with
  | OpAccountGet address =>
      overlayKnown (runOp ss op) ∧ unrecordedAbsent (AccountKey address :: seen) (runOp ss op)
  | OpConsensusGet key =>
      overlayKnown (runOp ss op) ∧ unrecordedAbsent (ConsensusKey key :: seen) (runOp ss op)
  | OpAccountSet address _ =>
      AccountKey address ∈ seen →
      overlayKnown (runOp ss op) ∧ unrecordedAbsent seen (runOp ss op)
  | OpConsensusSet key _ =>
      ConsensusKey key ∈ seen →
      overlayKnown (runOp ss op) ∧ unrecordedAbsent seen (runOp ss op)
  end.
Proof.
  intros Hknown Habsent. destruct op as [a|a acc|x|x v]; cbn [runOp].
  - unfold StateStoreOps.account_get.
    destruct (accountData ss !! a) as [acc|] eqn:Hdata; cbn [snd].
    { split; [done|]. intros k [Hk|Hk] Hnone; [|by apply Habsent; auto].
      apply elem_of_cons in Hk as [->|Hk]; [|by apply Habsent; auto].
      destruct (Hknown (AccountKey a)) as [Hd|[w Hw]].
      - cbn. rewrite Hdata. by eexists.
      - by apply Habsent; auto.
      - congruence. }
    destruct (state (ss_dataAccess ss) !! AccountKey a) as [bytes|] eqn:Hstate;
      cbn [snd].
    + split.
      * intros [a'|x'] Hov; cbn in *; [|by apply (Hknown (ConsensusKey x'))].
        destruct (decide (a = a')) as [->|Hne].
        -- right. rewrite lookup_insert_eq. by eexists.
        -- rewrite lookup_insert_ne in Hov by done. rewrite lookup_insert_ne by done.
           by apply (Hknown (AccountKey a')).
      * intros [a'|x'] Hk Hnone; cbn in *.
        -- destruct (decide (a = a')) as [->|Hne].
           ++ by rewrite lookup_insert_eq in Hnone.
           ++ rewrite lookup_insert_ne in Hnone by done.
              apply (Habsent (AccountKey a')); [|done].
              destruct Hk as [Hk|Hk]; [|by right].
              apply elem_of_cons in Hk as [[= ->]|Hk]; [done|by left].
        -- apply (Habsent (ConsensusKey x')); [|done].
           destruct Hk as [Hk|Hk]; [|by right].
           apply elem_of_cons in Hk as [[=]|Hk]. by left.
    + split; [done|]. intros k [Hk|Hk] Hnone; [|by apply Habsent; auto].
      apply elem_of_cons in Hk as [->|Hk]; [done|by apply Habsent; auto].
  - intros Hseen. split.
    + intros k Hov. rewrite isDirty_account_set.
      change (initialOf (StateStoreOps.account_set ss a acc) k) with (initialOf ss k).
      destruct k as [a'|x']; cbn in Hov.
      * destruct (decide (a = a')) as [->|Hne]; [by left; left|].
        rewrite lookup_insert_ne in Hov by done.
        destruct (Hknown (AccountKey a') Hov); [by left; right|by right].
      * destruct (Hknown (ConsensusKey x') Hov); [by left; right|by right].
    + intros k Hk Hnone. rewrite isDirty_account_set in Hk.
      change (ss_dataAccess (StateStoreOps.account_set ss a acc)) with (ss_dataAccess ss).
      apply Habsent; [|done]. destruct Hk as [?|[ -> |?]]; auto.
  - unfold StateStoreOps.consensus_get.
    destruct (consensusData ss !! x) as [v|] eqn:Hdata; cbn [snd].
    { split; [done|]. intros k [Hk|Hk] Hnone; [|by apply Habsent; auto].
      apply elem_of_cons in Hk as [->|Hk]; [|by apply Habsent; auto].
      destruct (Hknown (ConsensusKey x)) as [Hd|[w Hw]].
      - cbn. rewrite Hdata. by eexists.
      - by apply Habsent; auto.
      - congruence. }
    destruct (state (ss_dataAccess ss) !! ConsensusKey x) as [bytes|] eqn:Hstate;
      cbn [snd].
    + split.
      * intros [a'|x'] Hov; cbn in *; [by apply (Hknown (AccountKey a'))|].
        destruct (decide (x = x')) as [->|Hne].
        -- right. rewrite lookup_insert_eq. by eexists.
        -- rewrite lookup_insert_ne in Hov by done. rewrite lookup_insert_ne by done.
           by apply (Hknown (ConsensusKey x')).
      * intros [a'|x'] Hk Hnone; cbn in *.
        -- apply (Habsent (AccountKey a')); [|done].
           destruct Hk as [Hk|Hk]; [|by right].
           apply elem_of_cons in Hk as [[=]|Hk]. by left.
        -- destruct (decide (x = x')) as [->|Hne].
           ++ by rewrite lookup_insert_eq in Hnone.
           ++ rewrite lookup_insert_ne in Hnone by done.
              apply (Habsent (ConsensusKey x')); [|done].
              destruct Hk as [Hk|Hk]; [|by right].
              apply elem_of_cons in Hk as [[= ->]|Hk]; [done|by left].
    + split; [done|]. intros k [Hk|Hk] Hnone; [|by apply Habsent; auto].
      apply elem_of_cons in Hk as [->|Hk]; [done|by apply Habsent; auto].
  - intros Hseen. split.
    + intros k Hov. rewrite isDirty_consensus_set.
      change (initialOf (StateStoreOps.consensus_set ss x v) k) with (initialOf ss k).
      destruct k as [a'|x']; cbn in Hov.
      * destruct (Hknown (AccountKey a') Hov); [by left; right|by right].
      * destruct (decide (x = x')) as [->|Hne]; [by left; left|].
        rewrite lookup_insert_ne in Hov by done.
        destruct (Hknown (ConsensusKey x') Hov); [by left; right|by right].
    + intros k Hk Hnone. rewrite isDirty_consensus_set in Hk.
      change (ss_dataAccess (StateStoreOps.consensus_set ss x v)) with (ss_dataAccess ss).
      apply Habsent; [|done]. destruct Hk as [?|[ -> |?]]; auto.
Qed.

Lemma runOps_readsFirst `{Codec} (ops : list StoreOp) (ss : StateStore)
    (seen : list StateKey) :
  overlayKnown ss → unrecordedAbsent seen ss → readsFirst seen ops →
  ∃ seen', unrecordedAbsent seen' (runOps ss ops).
Proof.
  unfold runOps. revert ss seen.
  induction ops as [|op ops IH]; intros ss seen Hknown Habsent Hops; [by exists seen|].
  pose proof (runOp_readsFirst ss seen op Hknown Habsent) as Hstep.
  cbn [foldl]. destruct op as [a|a acc|x|x v]; cbn [readsFirst] in Hops.
  - destruct Hstep as [Hknown' Habsent']. by apply (IH _ _ Hknown' Habsent').
  - destruct Hops as [Hseen Hops]. destruct (Hstep Hseen) as [Hknown' Habsent'].
    by apply (IH _ _ Hknown' Habsent').
  - destruct Hstep as [Hknown' Habsent']. by apply (IH _ _ Hknown' Habsent').
  - destruct Hops as [Hseen Hops]. destruct (Hstep Hseen) as [Hknown' Habsent'].
    by apply (IH _ _ Hknown' Habsent').
Qed.

(** A store from the factory on which every write came after a read of
    the same key has read what it overwrites. *)
Lemma runOps_readBeforeWrite `{Codec} (c : Chain) (skipLastHeights : Z)
    (ops : list StoreOp) :
  readsFirst [] ops →
  readBeforeWrite (runOps (ChainOps.newStateStore c skipLastHeights) ops).
Proof.
  intros Hops.
  destruct (runOps_readsFirst ops (ChainOps.newStateStore c skipLastHeights) [])
    as [seen Habsent]; [| |done|].
  - intros [a|x] [v Hv]; cbn in Hv; by rewrite lookup_empty in Hv.
  - intros k [Hk|Hk]; [by apply not_elem_of_nil in Hk|].
    destruct k; cbn in Hk; by apply not_elem_of_nil in Hk.
  - split; apply Forall_forall; intros k Hk Hnone.
    + apply (Habsent (AccountKey k)); [by right|done].
    + apply (Habsent (ConsensusKey k)); [by right|done].
Qed.






(** The store of the round trip has to have read what it overwrites: a
    store that writes an account and the validator set without reading
    them records them as created, and the revert deletes them. *)
Example saveBlock_blind_write_not_reverted :
  let stateStore :=
    @runOps Fixture.codec (ChainOps.newStateStore Fixture.chain1 0) Fixture.blindOps2 in
  let saved :=
    (@ChainOps.saveBlock Fixture.codec Fixture.chain1 Fixture.block2 stateStore 1 false).2 in
  let removed :=
    @ChainOps.removeBlock Fixture.codec saved Fixture.block2
      (ChainOps.newStateStore saved 0) false in
  removed.1 = Ok tt
  ∧ _lastBlock removed.2 = Fixture.block1
  ∧ state (dataAccess Fixture.chain1) !! AccountKey Fixture.addr1
    = Some (@encodeAccount Fixture.codec Fixture.account1)
  ∧ state (dataAccess removed.2) !! AccountKey Fixture.addr1 = None
  ∧ @ChainOps.getValidators Fixture.codec Fixture.chain1 = Fixture.validators0
  ∧ @ChainOps.getValidators Fixture.codec removed.2 = [].
Proof. vm_compute. repeat split; reflexivity. Qed.


(** ** Validator rotation *)

Lemma find_first {A : Type} (p : A → bool) (l : list A) :
  match find p l with
  | Some x =>
      ∃ i : nat, l !! i = Some x ∧ p x = true
                 ∧ ∀ (j : nat) y, (j < i)%nat → l !! j = Some y → p y = false
  | None => ∀ x, x ∈ l → p x = false
  end.
Proof.
  induction l as [|a l IH]; simpl.
  - intros x Hx. by apply not_elem_of_nil in Hx.
  - destruct (p a) eqn:Hpa.
    + exists 0%nat. repeat split; [done|]. intros j y Hj. lia.
    + destruct (find p l) as [x|].
      * destruct IH as (i & Hi & Hpx & Hfirst). exists (S i).
        repeat split; [done..|]. intros [|j] y Hj Hy; simpl in Hy.
        -- congruence.
        -- apply (Hfirst j); [lia|done].
      * intros x Hx. apply elem_of_cons in Hx as [->|Hx]; [done|by apply IH].
Qed.

Lemma nextValidatorOf_rotatedEntry (previousValidators : list Validator.t)
    (blockHeader : Header) (candidate : ValidatorInput.t) :
  rotatedEntry previousValidators blockHeader candidate
    (ChainOps.nextValidatorOf previousValidators blockHeader candidate).
Proof.
  unfold rotatedEntry, ChainOps.nextValidatorOf. cbn.
  split; [done|]. split; [done|].
  pose proof (find_first
    (λ pv, bool_decide (Validator.address pv = ValidatorInput.address candidate))
    previousValidators) as Hfind.
  destruct (find _ previousValidators) as [x|].
  - destruct Hfind as (i & Hi & Hpx & Hfirst). apply bool_decide_eq_true in Hpx.
    split.
    + intros Hnone. exfalso. apply (Hnone x); [|done].
      apply list_elem_of_lookup. eauto.
    + intros i' pv Hi' Hpv Hfirst'.
      destruct (Nat.lt_trichotomy i i') as [Hlt|[->|Hgt]].
      * exfalso. by apply (Hfirst' i x).
      * congruence.
      * exfalso. specialize (Hfirst i' pv Hgt Hi').
        apply bool_decide_eq_false in Hfirst. done.
  - split; [done|].
    intros i pv Hi Hpv _. exfalso.
    assert (Hin : pv ∈ previousValidators) by (apply list_elem_of_lookup; eauto).
    apply Hfind in Hin. apply bool_decide_eq_false in Hin. done.
Qed.

(** C5.  The bootstrap height is [validatorCount × initRounds +
    genesisHeight], with the rounds and the height of the chain's genesis
    block.  For a header strictly below it [setValidators] returns without
    writing or emitting anything.  At or above it, with a previous set in
    the consensus sub-store, every written entry keeps the
    [minActiveHeight] the candidate's address had in the previous set and
    gets [header.height + 1] otherwise; the new set is written under the
    validators key and [ValidatorsChanged] is emitted with it. *)
Theorem setValidators_spec `{Codec} (c : Chain) (validators : list ValidatorInput.t)
    (stateStore : StateStore) (blockHeader : Header) :
  let bootstrap :=
    _numberOfValidators c * initRounds (asset (header (_genesisBlock c)))
    + height (header (_genesisBlock c)) in
  (height blockHeader < bootstrap →
     ChainOps.setValidators c validators stateStore blockHeader = (Ok tt, c, stateStore))
  ∧ (bootstrap <= height blockHeader →
     ∀ validatorsBuffer stateStore1,
       StateStoreOps.consensus_get stateStore CONSENSUS_STATE_VALIDATORS_KEY
       = (Some validatorsBuffer, stateStore1) →
       ∃ nextValidatorSet c' stateStore',
         ChainOps.setValidators c validators stateStore blockHeader
         = (Ok tt, c', stateStore')
         ∧ Forall2 (rotatedEntry (decodeValidators validatorsBuffer) blockHeader)
             validators nextValidatorSet
         ∧ consensusData stateStore' !! CONSENSUS_STATE_VALIDATORS_KEY
           = Some (encodeValidators nextValidatorSet)
         ∧ CONSENSUS_STATE_VALIDATORS_KEY ∈ consensusUpdated stateStore'
         ∧ events c' = events c ++ [EVENT_VALIDATORS_CHANGED nextValidatorSet]
         ∧ dataAccess c' = dataAccess c ∧ _lastBlock c' = _lastBlock c).
Proof.
  intros bootstrap.
  unfold ChainOps.setValidators, ChainOps._getLastBootstrapHeight. fold bootstrap.
  split.
  - intros Hlow.
    destruct (Z.gtb_spec bootstrap (height blockHeader)); [done|lia].
  - intros Hhigh validatorsBuffer stateStore1 Hget.
    destruct (Z.gtb_spec bootstrap (height blockHeader)); [lia|].
    rewrite Hget.
    exists (map (ChainOps.nextValidatorOf (decodeValidators validatorsBuffer) blockHeader)
              validators).
    eexists. eexists. split; [reflexivity|].
    split.
    { induction validators as [|v vs IH]; simpl; constructor; [|done].
      apply nextValidatorOf_rotatedEntry. }
    split; [apply lookup_insert_eq|].
    split; [|done].
    cbn. apply elem_of_markDirty. by left.
Qed.

Lemma setValidators_spec_witness :
  let store := ChainOps.newStateStore Fixture.chain1 0 in
  @ChainOps.setValidators Fixture.codec Fixture.chain1 Fixture.candidates store
     Fixture.header5
  = (Ok tt, Fixture.chain1, store)
  ∧ ∃ nextValidatorSet c' stateStore',
      @ChainOps.setValidators Fixture.codec Fixture.chain1 Fixture.candidates store
        Fixture.header6
      = (Ok tt, c', stateStore')
      ∧ Forall2 (rotatedEntry
                   (@decodeValidators Fixture.codec
                      (@encodeValidators Fixture.codec Fixture.validators0))
                   Fixture.header6)
          Fixture.candidates nextValidatorSet
      ∧ consensusData stateStore' !! CONSENSUS_STATE_VALIDATORS_KEY
        = Some (@encodeValidators Fixture.codec nextValidatorSet)
      ∧ CONSENSUS_STATE_VALIDATORS_KEY ∈ consensusUpdated stateStore'
      ∧ events c' = events Fixture.chain1 ++ [EVENT_VALIDATORS_CHANGED nextValidatorSet]
      ∧ dataAccess c' = dataAccess Fixture.chain1
      ∧ _lastBlock c' = _lastBlock Fixture.chain1.
Proof.
  intros store. split.
  - apply (proj1 (@setValidators_spec Fixture.codec Fixture.chain1 Fixture.candidates
                    store Fixture.header5)).
    reflexivity.
  - apply (proj2 (@setValidators_spec Fixture.codec Fixture.chain1 Fixture.candidates
                    store Fixture.header6)
             ltac:(discriminate)
             (@encodeValidators Fixture.codec Fixture.validators0)
             (StateStoreOps.consensus_get store CONSENSUS_STATE_VALIDATORS_KEY).2).
    vm_compute. reflexivity.
Defined.

(** On the devnet fixture, rotating to [addr2; addr3] at height 6 keeps
    the [minActiveHeight] 1 of [addr2] and gives [addr3] height 7. *)
Example setValidators_rotation :
  (@ChainOps.setValidators Fixture.codec Fixture.chain1 Fixture.candidates
     (ChainOps.newStateStore Fixture.chain1 0) Fixture.header6).1.2
  = ChainOps.emit Fixture.chain1
      (EVENT_VALIDATORS_CHANGED
         [Validator.mk Fixture.addr2 1 true; Validator.mk Fixture.addr3 7 false]).
Proof. vm_compute. reflexivity. Qed.

Lemma consensus_get_None (stateStore : StateStore) (key : string) :
  (StateStoreOps.consensus_get stateStore key).1 = None →
  StateStoreOps.consensus_get stateStore key = (None, stateStore).
Proof.
  unfold StateStoreOps.consensus_get.
  destruct (consensusData stateStore !! key); [done|].
  destruct (state (ss_dataAccess stateStore) !! ConsensusKey key); done.
Qed.

(** C10.  At or above the bootstrap height, when the consensus sub-store
    has no entry under the validators key, [setValidators] throws
    'Previous validator set must exist'; nothing is written to the state
    store and nothing is emitted. *)
Theorem setValidators_no_previous `{Codec} (c : Chain)
    (validators : list ValidatorInput.t) (stateStore : StateStore)
    (blockHeader : Header) :
  ChainOps._getLastBootstrapHeight c <= height blockHeader →
  (StateStoreOps.consensus_get stateStore CONSENSUS_STATE_VALIDATORS_KEY).1 = None →
  ChainOps.setValidators c validators stateStore blockHeader
  = (Throw "Previous validator set must exist", c, stateStore).
Proof.
  intros Hhigh Hnone. unfold ChainOps.setValidators.
  destruct (Z.gtb_spec (ChainOps._getLastBootstrapHeight c) (height blockHeader));
    [lia|].
  by rewrite (consensus_get_None _ _ Hnone).
Qed.

Lemma setValidators_no_previous_witness :
  let emptyStore :=
    StateStoreOps.new
      (DataAccessOps.withStore Fixture.dataAccess1 ∅ ∅ ∅ ∅ ∅) [] [] 0
      (_defaultAccount Fixture.chain1) in
  @ChainOps.setValidators Fixture.codec Fixture.chain1 Fixture.candidates emptyStore
    Fixture.header6
  = (Throw "Previous validator set must exist", Fixture.chain1, emptyStore).
Proof.
  intros emptyStore.
  apply (@setValidators_no_previous Fixture.codec); [discriminate|reflexivity].
Defined.

(** ** Validator lookup *)

Lemma js_index_rem_Some {A : Type} (l : list A) (slot : Z) :
  l ≠ [] → 0 <= slot →
  js_index l (js_rem slot (Z.of_nat (length l)))
  = l !! Z.to_nat (slot mod Z.of_nat (length l))
  ∧ is_Some (js_index l (js_rem slot (Z.of_nat (length l)))).
Proof.
  intros Hl Hslot. unfold js_rem, js_index.
  assert (Hlen : 0 < Z.of_nat (length l)) by (destruct l; [done|simpl; lia]).
  destruct (Z.eqb_spec (Z.of_nat (length l)) 0); [lia|].
  rewrite Z.rem_mod_nonneg by lia.
  pose proof (Z.mod_pos_bound slot (Z.of_nat (length l)) Hlen) as Hb.
  destruct (Z.ltb_spec (slot mod Z.of_nat (length l)) 0); [lia|].
  split; [done|]. apply lookup_lt_is_Some. lia.
Qed.

(** C9, as amended.  With an empty validator set [getValidator] yields no
    validator, for every timestamp.  For a timestamp whose slot number is
    not negative (a timestamp not before genesis) it yields
    [validators[slot mod len]] when the set is not empty, so that there
    the lookup has no value exactly when the set is empty. *)
Theorem getValidator_defined `{Codec} (c : Chain) (timestamp : Z) :
  (ChainOps.getValidators c = [] → ChainOps.getValidator c timestamp = None)
  ∧ (0 <= getSlotNumber (slots c) timestamp →
     (ChainOps.getValidators c ≠ [] →
        ChainOps.getValidator c timestamp
        = ChainOps.getValidators c
            !! Z.to_nat (getSlotNumber (slots c) timestamp
                         mod Z.of_nat (length (ChainOps.getValidators c))))
     ∧ (ChainOps.getValidator c timestamp = None ↔ ChainOps.getValidators c = [])).
Proof.
  unfold ChainOps.getValidator. split.
  - intros ->. reflexivity.
  - intros Hslot.
    destruct (ChainOps.getValidators c) as [|v vs] eqn:Hvs.
    + split; [done|]. split; reflexivity.
    + destruct (js_index_rem_Some (v :: vs) (getSlotNumber (slots c) timestamp))
        as [Heq [x Hx]]; [done..|].
      split; [intros _; exact Heq|].
      rewrite Hx. split; discriminate.
Qed.

Lemma getValidator_defined_witness :
  let c0 := ChainOps.withDataAccess Fixture.chain1
              (DataAccessOps.withStore Fixture.dataAccess1 ∅ ∅ ∅ ∅ ∅) in
  @ChainOps.getValidator Fixture.codec c0 1025 = None
  ∧ @ChainOps.getValidator Fixture.codec Fixture.chain1 1035
    = Some (Validator.mk Fixture.addr2 1 false)
  ∧ (@ChainOps.getValidator Fixture.codec Fixture.chain1 1035 = None
     ↔ @ChainOps.getValidators Fixture.codec Fixture.chain1 = []).
Proof.
  intros c0. split; [|split].
  - apply (proj1 (@getValidator_defined Fixture.codec c0 1025)). reflexivity.
  - rewrite (proj1 (proj2 (@getValidator_defined Fixture.codec Fixture.chain1 1035)
                      ltac:(discriminate)) ltac:(discriminate)).
    reflexivity.
  - apply (proj2 (@getValidator_defined Fixture.codec Fixture.chain1 1035)
             ltac:(discriminate)).
Defined.

(** C9 as stated fails: for a timestamp before genesis the slot number is
    negative, the remainder keeps its sign, and the lookup has no value
    although the validator set has two entries. *)
Lemma getValidator_undefined_nonempty :
  getSlotNumber (slots Fixture.chain1) 995 = -1
  ∧ @ChainOps.getValidators Fixture.codec Fixture.chain1 = Fixture.validators0
  ∧ @ChainOps.getValidator Fixture.codec Fixture.chain1 995 = None
  ∧ ¬ (@ChainOps.getValidator Fixture.codec Fixture.chain1 995 = None
       ↔ @ChainOps.getValidators Fixture.codec Fixture.chain1 = []).
Proof.
  assert (Hvs : @ChainOps.getValidators Fixture.codec Fixture.chain1
                = Fixture.validators0) by (vm_compute; reflexivity).
  assert (Hnone : @ChainOps.getValidator Fixture.codec Fixture.chain1 995 = None)
    by (vm_compute; reflexivity).
  repeat split; [done..|].
  intros [Hempty _]. specialize (Hempty Hnone). rewrite Hvs in Hempty. discriminate.
Qed.

(** ** The state-store factory *)

Lemma elem_of_getBlockHeadersByHeightBetween (da : DataAccess)
    (fromHeight toHeight : Z) (h : Header) :
  h ∈ DataAccessOps.getBlockHeadersByHeightBetween da fromHeight toHeight
  ↔ ∃ k blockID b,
      fromHeight <= k <= toHeight
      ∧ blockIDsByHeight da !! k = Some blockID
      ∧ blocks da !! blockID = Some b
      ∧ h = header b.
Proof.
  unfold DataAccessOps.getBlockHeadersByHeightBetween.
  rewrite list_elem_of_omap. split.
  - intros (k & Hk & Hf). apply elem_of_seqZ in Hk.
    destruct (blockIDsByHeight da !! k) as [blockID|] eqn:Hid; simpl in Hf; [|done].
    destruct (blocks da !! blockID) as [b|] eqn:Hb; simpl in Hf; [|done].
    exists k, blockID, b. repeat split; try done; try lia. congruence.
  - intros (k & blockID & b & Hk & Hid & Hb & ->).
    exists k. split; [apply elem_of_seqZ; lia|].
    rewrite Hid. simpl. by rewrite Hb.
Qed.

(** C7, as amended.  [newStateStore(skipLastHeights)] seeds the store
    with the stored headers of the heights from
    [max(0, tip.height − 3 × validatorCount − skipLastHeights)] up to
    [max(tip.height − skipLastHeights, 1)], and with [lastBlockReward]
    the default reward at the height of the first header of that list,
    or at height 1 when the list is empty. *)
Theorem newStateStore_window (c : Chain) (skipLastHeights : Z) :
  let tip := height (header (_lastBlock c)) in
  let fromHeight := Z.max 0 (tip - ChainOps.numberOfValidators c * 3 - skipLastHeights) in
  let toHeight := Z.max (tip - skipLastHeights) 1 in
  let store := ChainOps.newStateStore c skipLastHeights in
  lastBlockHeaders store
  = DataAccessOps.getBlockHeadersByHeightBetween (dataAccess c) fromHeight toHeight
  ∧ (∀ h, h ∈ lastBlockHeaders store
          ↔ ∃ k blockID b,
              fromHeight <= k <= toHeight
              ∧ blockIDsByHeight (dataAccess c) !! k = Some blockID
              ∧ blocks (dataAccess c) !! blockID = Some b
              ∧ h = header b)
  ∧ lastBlockReward store
    = ChainOps.calculateDefaultReward c
        (match lastBlockHeaders store with
         | h :: _ => height h
         | [] => 1
         end)
  ∧ accountUpdated store = [] ∧ consensusUpdated store = []
  ∧ ss_dataAccess store = dataAccess c.
Proof.
  intros tip fromHeight toHeight store.
  split; [reflexivity|].
  split; [intros h; apply elem_of_getBlockHeadersByHeightBetween|].
  split; [|done].
  unfold store, ChainOps.newStateStore. cbn.
  by destruct (DataAccessOps.getBlockHeadersByHeightBetween _ _ _).
Qed.

(** C7 as stated fails: with the tip at height 1 and one height skipped
    the window is asked up to height [max(0, 1) = 1], so the store is
    seeded with the header of height 1, above [tip.height − 1 = 0]. *)
Lemma newStateStore_window_above_skip :
  let store := ChainOps.newStateStore Fixture.chain1 1 in
  height (header (_lastBlock Fixture.chain1)) - 1 = 0
  ∧ lastBlockHeaders store = [header (asBlock Fixture.genesis); header Fixture.block1]
  ∧ ¬ (∀ h, h ∈ lastBlockHeaders store →
            height h <= height (header (_lastBlock Fixture.chain1)) - 1).
Proof.
  assert (Hl : lastBlockHeaders (ChainOps.newStateStore Fixture.chain1 1)
               = [header (asBlock Fixture.genesis); header Fixture.block1])
    by (vm_compute; reflexivity).
  split; [reflexivity|]. split; [exact Hl|].
  intros Hall. specialize (Hall (header Fixture.block1)).
  rewrite Hl in Hall.
  assert (Hle : height (header Fixture.block1)
                <= height (header (_lastBlock Fixture.chain1)) - 1).
  { apply Hall. apply elem_of_cons. right. apply elem_of_cons. by left. }
  vm_compute in Hle. done.
Qed.

(** With an empty window the reward is the default reward at height 1
    (0 on the devnet schedule), not the amount 1. *)
Example newStateStore_empty_window :
  let c0 := ChainOps.withDataAccess Fixture.chain1
              (DataAccessOps.withStore Fixture.dataAccess1 ∅ ∅ ∅ ∅ ∅) in
  lastBlockHeaders (ChainOps.newStateStore c0 0) = []
  ∧ lastBlockReward (ChainOps.newStateStore c0 0) = 0.
Proof. split; vm_compute; reflexivity. Qed.

(** ** Proof of misbehavior *)



(** The scenarios of the unit test of the handler: the fifth strike bans
    the delegate, the reward is the last block reward when the accused
    can afford it, 0 when the accused is below the minimum remaining
    balance, the difference when in between, and 0 for a self-report. *)
Example pom_apply_scenarios :
  let run sender accusedBalance :=
    @Pom.apply Fixture.codec Fixture.dposUtils (Fixture.pomContext sender accusedBalance) in
  accountData (run Fixture.addr2 0).1.2 !! Fixture.addr1
  = Some (Account.mk Fixture.addr1 0 "misBehavingDelegate"
            [500; 1000; 2000; 4550; 8760001] true)
  ∧ (run Fixture.addr2 (6900000000 + 10000000000)).2
    = [Pom.TokenCredit Fixture.addr2 6900000000]
  ∧ (run Fixture.addr2 100).2 = [Pom.TokenCredit Fixture.addr2 0]
  ∧ (run Fixture.addr2 (6900000000 - 1)).2
    = [Pom.TokenCredit Fixture.addr2 (6900000000 - 1 - 5000000)]
  ∧ (run Fixture.addr1 (6900000000 + 10000000000)).2
    = [Pom.TokenCredit Fixture.addr1 0].
Proof. repeat split; vm_compute; reflexivity. Qed.

(** * Further properties of the chain engine *)

(** ** Removing a block: failures and outcome *)

(** When the block at [previousBlockID] is not stored, [removeBlock] of a
    block that passes the genesis guard throws 'PreviousBlock is null'
    and leaves the chain as it was. *)
Theorem removeBlock_previous_missing `{Codec} (c : Chain) (block : Block)
    (stateStore : StateStore) (saveTempBlock : bool) :
  version (header block) ≠ version (header (ChainOps.genesisBlock c)) →
  blocks (dataAccess c) !! previousBlockID (header block) = None →
  ChainOps.removeBlock c block stateStore saveTempBlock
  = (Throw "PreviousBlock is null", c).
Proof.
  intros Hver Hprev. unfold ChainOps.removeBlock.
  destruct (Z.eqb_spec (version (header block))
              (version (header (ChainOps.genesisBlock c)))) as [|_]; [done|].
  unfold DataAccessOps.getBlockByID. by rewrite Hprev.
Qed.

Lemma removeBlock_previous_missing_witness :
  @ChainOps.removeBlock Fixture.codec Fixture.chain1 Fixture.orphan Fixture.store1 false
  = (Throw "PreviousBlock is null", Fixture.chain1).
Proof.
  apply (@removeBlock_previous_missing Fixture.codec).
  - discriminate.
  - vm_compute. reflexivity.
Defined.

(** Whatever [removeBlock] throws, the tip and the emitted events are
    those from before the call; when it succeeds, the new tip is the
    block stored at [previousBlockID] and exactly one [DeleteBlock] event,
    for the removed block, was emitted. *)
Theorem removeBlock_outcome `{Codec} (c : Chain) (block : Block)
    (stateStore : StateStore) (saveTempBlock : bool) :
  let '(result, c') := ChainOps.removeBlock c block stateStore saveTempBlock in
  match result with
  | Throw _ => _lastBlock c' = _lastBlock c ∧ events c' = events c
  | Ok _ =>
      version (header block) ≠ version (header (ChainOps.genesisBlock c))
      ∧ blocks (dataAccess c) !! previousBlockID (header block) = Some (_lastBlock c')
      ∧ ∃ accounts, events c' = events c ++ [EVENT_DELETE_BLOCK block accounts]
  end.
Proof.
  unfold ChainOps.removeBlock.
  destruct (Z.eqb_spec (version (header block))
              (version (header (ChainOps.genesisBlock c)))) as [|Hver]; [done|].
  unfold DataAccessOps.getBlockByID.
  destruct (blocks (dataAccess c) !! previousBlockID (header block)) as [b|]; [|done].
  destruct (DataAccessOps.deleteBlock (dataAccess c) block stateStore saveTempBlock)
    as [[accounts|e] da]; cbn; [|done].
  split; [done|]. split; [done|]. by exists accounts.
Qed.

(** ** Commit followed by revert: the events *)



(** ** The state-store factory: window size, and the chain before [init] *)

Lemma length_omap_le {A B : Type} (f : A → option B) (l : list A) :
  (length (omap f l) ≤ length l)%nat.
Proof.
  induction l as [|a l IH]; [done|].
  cbn. destruct (f a); cbn; lia.
Qed.

(** With a validator count that is not negative and at least one height
    left below the skipped ones, [newStateStore] seeds at most
    [3 × validatorCount + 1] headers. *)
Theorem newStateStore_window_size (c : Chain) (skipLastHeights : Z) :
  0 <= ChainOps.numberOfValidators c →
  1 <= height (header (_lastBlock c)) - skipLastHeights →
  Z.of_nat (length (lastBlockHeaders (ChainOps.newStateStore c skipLastHeights)))
  <= 3 * ChainOps.numberOfValidators c + 1.
Proof.
  intros Hn Htip. cbn.
  unfold DataAccessOps.getBlockHeadersByHeightBetween.
  etrans; [apply Nat2Z.inj_le, length_omap_le|].
  rewrite length_seqZ. lia.
Qed.

Lemma newStateStore_window_size_witness :
  Z.of_nat (length (lastBlockHeaders (ChainOps.newStateStore Fixture.chain1 0)))
  <= 3 * ChainOps.numberOfValidators Fixture.chain1 + 1.
Proof.
  apply (newStateStore_window_size Fixture.chain1 0); discriminate.
Defined.

(** A chain that was constructed but not initialised counts −1
    validators, so the window of [newStateStore] is empty: for a genesis
    height that is not negative and up to [genesis.height + 1] skipped
    heights, no header is seeded and [lastBlockReward] is the default
    reward at height 1, whatever the store holds. *)
Theorem newStateStore_before_init (db : DataAccess) (genesisBlock : GenesisBlock)
    (defaultAccount : Account.t) (blockTime : Z) (networkIdentifier : Buffer)
    (rewardDistance rewardOffset : Z) (rewardMilestones : list Z)
    (minBlockHeaderCache maxBlockHeaderCache skipLastHeights : Z) :
  let c := ChainOps.constructor db genesisBlock defaultAccount blockTime
             networkIdentifier rewardDistance rewardOffset rewardMilestones
             minBlockHeaderCache maxBlockHeaderCache in
  0 <= height (header genesisBlock) →
  0 <= skipLastHeights <= height (header genesisBlock) + 1 →
  lastBlockHeaders (ChainOps.newStateStore c skipLastHeights) = []
  ∧ lastBlockReward (ChainOps.newStateStore c skipLastHeights)
    = ChainOps.calculateDefaultReward c 1.
Proof.
  intros c Hg Hskip.
  assert (Hl : lastBlockHeaders (ChainOps.newStateStore c skipLastHeights) = []).
  { cbn. unfold DataAccessOps.getBlockHeadersByHeightBetween.
    rewrite seqZ_nil; [done|]. lia. }
  split; [done|].
  unfold ChainOps.newStateStore in *. cbn in *. by rewrite Hl.
Qed.

Lemma newStateStore_before_init_witness :
  lastBlockHeaders (ChainOps.newStateStore Fixture.chain0 0) = []
  ∧ lastBlockReward (ChainOps.newStateStore Fixture.chain0 0)
    = ChainOps.calculateDefaultReward Fixture.chain0 1.
Proof.
  apply (newStateStore_before_init Fixture.dataAccess1 Fixture.genesis
           (Account.mk [] 0 "" [] false) 10 [] 3000000 2160
           [500000000; 400000000; 300000000; 200000000; 100000000] 2 4 0).
  - discriminate.
  - split; discriminate.
Defined.

(** ** Applying the genesis block *)

Lemma foldl_account_set (l : list Account.t) (ss : StateStore) :
  let ss' :=
    foldl (λ ss account, StateStoreOps.account_set ss (Account.address account) account)
          ss l in
  consensusData ss' = consensusData ss
  ∧ consensusUpdated ss' = consensusUpdated ss
  ∧ ∀ a, a ∈ l →
      Account.address a ∈ accountUpdated ss'
      ∧ ∃ a', a' ∈ l ∧ Account.address a' = Account.address a
              ∧ accountData ss' !! Account.address a = Some a'.
Proof.
  induction l as [|x l IH] using rev_ind; cbn zeta.
  - split; [done|]. split; [done|].
    intros a Ha. by apply not_elem_of_nil in Ha.
  - rewrite foldl_app. cbn [foldl].
    destruct IH as (Hcd & Hcu & Hacc).
    split; [done|]. split; [done|].
    intros a Ha. cbn.
    destruct (decide (Account.address x = Account.address a)) as [Heq|Hne].
    + split; [apply elem_of_markDirty; by left|].
      exists x. split; [apply elem_of_app; right; by apply list_elem_of_singleton|].
      split; [done|]. rewrite Heq. apply lookup_insert_eq.
    + apply elem_of_app in Ha as [Ha|Ha];
        [|apply list_elem_of_singleton in Ha; congruence].
      destruct (Hacc a Ha) as (Hdirty & a' & Ha' & Haddr & Hlook).
      split; [apply elem_of_markDirty; by right|].
      exists a'. split; [apply elem_of_app; by left|].
      split; [done|]. by rewrite lookup_insert_ne.
Qed.

(** [applyGenesisBlock] sets the validator count to the number of initial
    delegates and writes to the state store, under the validators key,
    one entry per initial delegate, in order, each with
    [minActiveHeight = genesis.height + 1] and not a consensus
    participant; every genesis account is dirty in the store, which holds
    for its address an account of the genesis block with that address.
    Nothing is persisted or emitted. *)
Theorem applyGenesisBlock_spec `{Codec} (c : Chain) (block : GenesisBlock)
    (stateStore : StateStore) :
  let '(c1, stateStore1) := ChainOps.applyGenesisBlock c block stateStore in
  ChainOps.numberOfValidators c1
  = Z.of_nat (length (initDelegates (asset (header block))))
  ∧ (∃ initialValidators,
       consensusData stateStore1 !! CONSENSUS_STATE_VALIDATORS_KEY
       = Some (encodeValidators initialValidators)
       ∧ map Validator.address initialValidators = initDelegates (asset (header block))
       ∧ Forall (λ v, Validator.minActiveHeight v = height (header block) + 1
                      ∧ Validator.isConsensusParticipant v = false)
           initialValidators)
  ∧ (∀ a, a ∈ accounts (asset (header block)) →
       Account.address a ∈ accountUpdated stateStore1
       ∧ ∃ a', a' ∈ accounts (asset (header block))
               ∧ Account.address a' = Account.address a
               ∧ accountData stateStore1 !! Account.address a = Some a')
  ∧ dataAccess c1 = dataAccess c ∧ events c1 = events c
  ∧ _lastBlock c1 = _lastBlock c.
Proof.
  unfold ChainOps.applyGenesisBlock. cbn zeta.
  split; [done|]. split.
  - eexists. split; [apply lookup_insert_eq|]. split.
    + rewrite map_map. cbn. apply map_id.
    + apply Forall_map. by apply Forall_forall.
  - split; [|done].
    intros a Ha.
    destruct (foldl_account_set (accounts (asset (header block))) stateStore)
      as (_ & _ & Hacc).
    apply (Hacc a Ha).
Qed.

Lemma find_initialValidators (delegates : list Buffer) (h : Z) (a : Buffer) :
  find (λ pv, bool_decide (Validator.address pv = a))
       (map (λ address, Validator.mk address h false) delegates)
  = if decide (a ∈ delegates) then Some (Validator.mk a h false) else None.
Proof.
  induction delegates as [|d ds IH]; cbn.
  - destruct (decide (a ∈ [])) as [Hin|_]; [by apply not_elem_of_nil in Hin|done].
  - destruct (decide (d = a)) as [->|Hne].
    + rewrite bool_decide_eq_true_2 by done.
      destruct (decide (a ∈ a :: ds)) as [_|Hin]; [done|].
      exfalso. apply Hin. by left.
    + rewrite bool_decide_eq_false_2 by done. rewrite IH.
      destruct (decide (a ∈ ds)) as [Hin|Hin];
        destruct (decide (a ∈ d :: ds)) as [Hin'|Hin']; try done.
      * exfalso. apply Hin'. by right.
      * exfalso. apply elem_of_cons in Hin' as [->|Hin']; done.
Qed.

(** After [applyGenesisBlock], validator rotation is a no-op for headers
    below [initDelegates.length × initRounds + genesis.height] (rounds and
    height of the chain's own genesis block); from there on it never
    fails for want of a previous set, every candidate that is an initial
    delegate keeps [minActiveHeight = genesis.height + 1] and every other
    candidate gets [header.height + 1].  The codec is assumed to decode
    the initial set it encoded. *)
Theorem applyGenesisBlock_setValidators `{Codec} (c : Chain) (block : GenesisBlock)
    (stateStore : StateStore) (validators : list ValidatorInput.t)
    (blockHeader : Header) :
  let delegates := initDelegates (asset (header block)) in
  let initialValidators :=
    map (λ address, Validator.mk address (height (header block) + 1) false) delegates in
  let bootstrap :=
    Z.of_nat (length delegates) * initRounds (asset (header (_genesisBlock c)))
    + height (header (_genesisBlock c)) in
  decodeValidators (encodeValidators initialValidators) = initialValidators →
  let '(c1, stateStore1) := ChainOps.applyGenesisBlock c block stateStore in
  (height blockHeader < bootstrap →
     ChainOps.setValidators c1 validators stateStore1 blockHeader
     = (Ok tt, c1, stateStore1))
  ∧ (bootstrap <= height blockHeader →
     ∃ nextValidatorSet c2 stateStore2,
       ChainOps.setValidators c1 validators stateStore1 blockHeader
       = (Ok tt, c2, stateStore2)
       ∧ consensusData stateStore2 !! CONSENSUS_STATE_VALIDATORS_KEY
         = Some (encodeValidators nextValidatorSet)
       ∧ events c2 = events c ++ [EVENT_VALIDATORS_CHANGED nextValidatorSet]
       ∧ Forall2
           (λ candidate v,
              Validator.address v = ValidatorInput.address candidate
              ∧ Validator.isConsensusParticipant v
                = ValidatorInput.isConsensusParticipant candidate
              ∧ Validator.minActiveHeight v
                = if decide (ValidatorInput.address candidate ∈ delegates)
                  then height (header block) + 1
                  else height blockHeader + 1)
           validators nextValidatorSet).
Proof.
  intros delegates initialValidators bootstrap Hcodec.
  unfold ChainOps.applyGenesisBlock. cbn zeta.
  unfold ChainOps.setValidators, ChainOps._getLastBootstrapHeight.
  cbn [_numberOfValidators _genesisBlock ChainOps.update]. fold delegates bootstrap.
  split.
  - intros Hlow. destruct (Z.gtb_spec bootstrap (height blockHeader)); [done|lia].
  - intros Hhigh. destruct (Z.gtb_spec bootstrap (height blockHeader)); [lia|].
    unfold StateStoreOps.consensus_get, StateStoreOps.consensus_set.
    cbn [consensusData StateStoreOps.withConsensus StateStoreOps.withRecords].
    rewrite lookup_insert_eq. fold initialValidators. rewrite Hcodec.
    eexists. eexists. eexists. split; [reflexivity|].
    split; [cbn; apply lookup_insert_eq|]. split; [reflexivity|].
    clear. induction validators as [|v vs IH]; cbn [map]; constructor; [|done].
    unfold ChainOps.nextValidatorOf. cbn.
    split; [done|]. split; [done|].
    unfold initialValidators. rewrite find_initialValidators.
    by destruct (decide (ValidatorInput.address v ∈ delegates)).
Qed.

Lemma applyGenesisBlock_setValidators_witness :
  let applied :=
    @ChainOps.applyGenesisBlock Fixture.codec Fixture.chain0 Fixture.genesis
      (ChainOps.newStateStore Fixture.chain0 0) in
  @ChainOps.setValidators Fixture.codec applied.1 Fixture.candidates applied.2
    (header Fixture.block2)
  = (Ok tt, applied.1, applied.2)
  ∧ ∃ nextValidatorSet c2 stateStore2,
      @ChainOps.setValidators Fixture.codec applied.1 Fixture.candidates applied.2
        Fixture.header6
      = (Ok tt, c2, stateStore2)
      ∧ consensusData stateStore2 !! CONSENSUS_STATE_VALIDATORS_KEY
        = Some (@encodeValidators Fixture.codec nextValidatorSet)
      ∧ events c2 = events Fixture.chain0 ++ [EVENT_VALIDATORS_CHANGED nextValidatorSet]
      ∧ Forall2
          (λ candidate v,
             Validator.address v = ValidatorInput.address candidate
             ∧ Validator.isConsensusParticipant v
               = ValidatorInput.isConsensusParticipant candidate
             ∧ Validator.minActiveHeight v
               = if decide (ValidatorInput.address candidate
                            ∈ initDelegates (asset (header Fixture.genesis)))
                 then height (header Fixture.genesis) + 1
                 else height Fixture.header6 + 1)
          Fixture.candidates nextValidatorSet.
Proof.
  intros applied. split.
  - apply (proj1 (@applyGenesisBlock_setValidators Fixture.codec Fixture.chain0
                    Fixture.genesis (ChainOps.newStateStore Fixture.chain0 0)
                    Fixture.candidates (header Fixture.block2) eq_refl)).
    reflexivity.
  - apply (proj2 (@applyGenesisBlock_setValidators Fixture.codec Fixture.chain0
                    Fixture.genesis (ChainOps.newStateStore Fixture.chain0 0)
                    Fixture.candidates Fixture.header6 eq_refl)).
    discriminate.
Defined.

(** ** Validator rotation: re-election and the bound on [minActiveHeight] *)

Lemma nextValidatorOf_minActiveHeight_address (previousValidators : list Validator.t)
    (blockHeader : Header) (c1 c2 : ValidatorInput.t) :
  ValidatorInput.address c1 = ValidatorInput.address c2 →
  Validator.minActiveHeight (ChainOps.nextValidatorOf previousValidators blockHeader c1)
  = Validator.minActiveHeight (ChainOps.nextValidatorOf previousValidators blockHeader c2).
Proof. unfold ChainOps.nextValidatorOf. cbn. by intros ->. Qed.

Lemma find_nextValidatorOf (previousValidators : list Validator.t)
    (blockHeader : Header) (validators : list ValidatorInput.t)
    (candidate : ValidatorInput.t) :
  candidate ∈ validators →
  ∃ candidate',
    ValidatorInput.address candidate' = ValidatorInput.address candidate
    ∧ find (λ pv, bool_decide (Validator.address pv = ValidatorInput.address candidate))
           (map (ChainOps.nextValidatorOf previousValidators blockHeader) validators)
      = Some (ChainOps.nextValidatorOf previousValidators blockHeader candidate').
Proof.
  induction validators as [|x xs IH]; intros Hin.
  - by apply not_elem_of_nil in Hin.
  - cbn [map find].
    destruct (decide (ValidatorInput.address x = ValidatorInput.address candidate))
      as [Heq|Hne].
    + exists x. split; [done|].
      by rewrite bool_decide_eq_true_2.
    + rewrite bool_decide_eq_false_2 by done.
      apply IH. apply elem_of_cons in Hin as [->|Hin]; done.
Qed.

Lemma nextValidatorOf_again (previousValidators : list Validator.t)
    (h1 h2 : Header) (validators : list ValidatorInput.t) :
  map (ChainOps.nextValidatorOf
         (map (ChainOps.nextValidatorOf previousValidators h1) validators) h2)
      validators
  = map (ChainOps.nextValidatorOf previousValidators h1) validators.
Proof.
  apply map_ext_in. intros candidate Hin. apply list_elem_of_In in Hin.
  destruct (find_nextValidatorOf previousValidators h1 validators candidate Hin)
    as (candidate' & Haddr & Hfind).
  unfold ChainOps.nextValidatorOf at 1. rewrite Hfind.
  rewrite (nextValidatorOf_minActiveHeight_address _ _ _ _ Haddr).
  reflexivity.
Qed.

(** Re-electing the same candidates at a later height writes the same
    validator set: no [minActiveHeight] moves.  The codec is assumed to
    decode the set written by the first rotation. *)
Theorem setValidators_reelection `{Codec} (c : Chain)
    (validators : list ValidatorInput.t) (stateStore stateStore0 : StateStore)
    (header1 header2 : Header) (validatorsBuffer : Buffer) :
  let nextValidatorSet :=
    map (ChainOps.nextValidatorOf (decodeValidators validatorsBuffer) header1)
        validators in
  ChainOps._getLastBootstrapHeight c <= height header1 →
  ChainOps._getLastBootstrapHeight c <= height header2 →
  StateStoreOps.consensus_get stateStore CONSENSUS_STATE_VALIDATORS_KEY
  = (Some validatorsBuffer, stateStore0) →
  decodeValidators (encodeValidators nextValidatorSet) = nextValidatorSet →
  ∃ c1 stateStore1 c2 stateStore2,
    ChainOps.setValidators c validators stateStore header1 = (Ok tt, c1, stateStore1)
    ∧ ChainOps.setValidators c1 validators stateStore1 header2 = (Ok tt, c2, stateStore2)
    ∧ consensusData stateStore1 !! CONSENSUS_STATE_VALIDATORS_KEY
      = Some (encodeValidators nextValidatorSet)
    ∧ consensusData stateStore2 = consensusData stateStore1
    ∧ events c2
      = events c ++ [EVENT_VALIDATORS_CHANGED nextValidatorSet;
                     EVENT_VALIDATORS_CHANGED nextValidatorSet].
Proof.
  intros nextValidatorSet Hh1 Hh2 Hget Hcodec.
  unfold ChainOps.setValidators.
  destruct (Z.gtb_spec (ChainOps._getLastBootstrapHeight c) (height header1)); [lia|].
  rewrite Hget. fold nextValidatorSet.
  eexists. eexists. eexists. eexists. split; [reflexivity|].
  change (ChainOps._getLastBootstrapHeight
            (ChainOps.emit c (EVENT_VALIDATORS_CHANGED nextValidatorSet)))
    with (ChainOps._getLastBootstrapHeight c).
  destruct (Z.gtb_spec (ChainOps._getLastBootstrapHeight c) (height header2)); [lia|].
  unfold StateStoreOps.consensus_get at 1.
  cbn [consensusData StateStoreOps.consensus_set StateStoreOps.withConsensus StateStoreOps.withRecords].
  rewrite lookup_insert_eq, Hcodec.
  subst nextValidatorSet. rewrite nextValidatorOf_again.
  split; [reflexivity|].
  cbn [consensusData StateStoreOps.consensus_set StateStoreOps.withConsensus StateStoreOps.withRecords].
  split; [done|].
  split; [apply insert_insert_eq|].
  cbn [events ChainOps.emit ChainOps.update]. by rewrite <- app_assoc.
Qed.

Lemma setValidators_reelection_witness :
  let store := ChainOps.newStateStore Fixture.chain1 0 in
  let nextValidatorSet :=
    [Validator.mk Fixture.addr2 1 true; Validator.mk Fixture.addr3 7 false] in
  ∃ c1 stateStore1 c2 stateStore2,
    @ChainOps.setValidators Fixture.codec Fixture.chain1 Fixture.candidates store
      Fixture.header6 = (Ok tt, c1, stateStore1)
    ∧ @ChainOps.setValidators Fixture.codec c1 Fixture.candidates stateStore1
        (header (Fixture.forged ["190"%byte] ["189"%byte] 2 20))
      = (Ok tt, c2, stateStore2)
    ∧ consensusData stateStore1 !! CONSENSUS_STATE_VALIDATORS_KEY
      = Some (@encodeValidators Fixture.codec nextValidatorSet)
    ∧ consensusData stateStore2 = consensusData stateStore1
    ∧ events c2
      = events Fixture.chain1 ++ [EVENT_VALIDATORS_CHANGED nextValidatorSet;
                                  EVENT_VALIDATORS_CHANGED nextValidatorSet].
Proof.
  intros store nextValidatorSet.
  apply (@setValidators_reelection Fixture.codec Fixture.chain1 Fixture.candidates
           store (StateStoreOps.consensus_get store CONSENSUS_STATE_VALIDATORS_KEY).2
           Fixture.header6 (header (Fixture.forged ["190"%byte] ["189"%byte] 2 20))
           (@encodeValidators Fixture.codec Fixture.validators0)).
  - discriminate.
  - discriminate.
  - vm_compute. reflexivity.
  - vm_compute. reflexivity.
Defined.

(** A rotation keeps the bound [minActiveHeight ≤ header.height + 1]:
    when every validator of the previous set satisfies it, so does every
    validator of the set that is written. *)
Theorem setValidators_minActiveHeight_bound `{Codec} (c : Chain)
    (validators : list ValidatorInput.t) (stateStore stateStore0 : StateStore)
    (blockHeader : Header) (validatorsBuffer : Buffer) :
  ChainOps._getLastBootstrapHeight c <= height blockHeader →
  StateStoreOps.consensus_get stateStore CONSENSUS_STATE_VALIDATORS_KEY
  = (Some validatorsBuffer, stateStore0) →
  Forall (λ pv, Validator.minActiveHeight pv <= height blockHeader + 1)
    (decodeValidators validatorsBuffer) →
  ∃ nextValidatorSet c' stateStore',
    ChainOps.setValidators c validators stateStore blockHeader = (Ok tt, c', stateStore')
    ∧ consensusData stateStore' !! CONSENSUS_STATE_VALIDATORS_KEY
      = Some (encodeValidators nextValidatorSet)
    ∧ length nextValidatorSet = length validators
    ∧ Forall (λ v, Validator.minActiveHeight v <= height blockHeader + 1)
        nextValidatorSet.
Proof.
  intros Hhigh Hget Hprev. unfold ChainOps.setValidators.
  destruct (Z.gtb_spec (ChainOps._getLastBootstrapHeight c) (height blockHeader));
    [lia|].
  rewrite Hget.
  exists (map (ChainOps.nextValidatorOf (decodeValidators validatorsBuffer) blockHeader)
            validators).
  eexists. eexists. split; [reflexivity|].
  split; [apply lookup_insert_eq|].
  split; [apply length_map|].
  apply Forall_map, Forall_forall. intros candidate _.
  unfold ChainOps.nextValidatorOf. cbn.
  destruct (find _ (decodeValidators validatorsBuffer)) as [pv|] eqn:Hfind; [|lia].
  apply find_some in Hfind as [Hin _].
  rewrite Forall_forall in Hprev. by apply Hprev, list_elem_of_In.
Qed.

Lemma setValidators_minActiveHeight_bound_witness :
  let store := ChainOps.newStateStore Fixture.chain1 0 in
  ∃ nextValidatorSet c' stateStore',
    @ChainOps.setValidators Fixture.codec Fixture.chain1 Fixture.candidates store
      Fixture.header6 = (Ok tt, c', stateStore')
    ∧ consensusData stateStore' !! CONSENSUS_STATE_VALIDATORS_KEY
      = Some (@encodeValidators Fixture.codec nextValidatorSet)
    ∧ length nextValidatorSet = length Fixture.candidates
    ∧ Forall (λ v, Validator.minActiveHeight v <= height Fixture.header6 + 1)
        nextValidatorSet.
Proof.
  intros store.
  apply (@setValidators_minActiveHeight_bound Fixture.codec Fixture.chain1
           Fixture.candidates store
           (StateStoreOps.consensus_get store CONSENSUS_STATE_VALIDATORS_KEY).2
           Fixture.header6 (@encodeValidators Fixture.codec Fixture.validators0)).
  - discriminate.
  - vm_compute. reflexivity.
  - repeat constructor; discriminate.
Defined.

(** ** Validator lookup: round robin *)

Lemma js_index_elem_of {A : Type} (l : list A) (i : option Z) (x : A) :
  js_index l i = Some x → x ∈ l.
Proof.
  unfold js_index. destruct i as [i|]; [|done].
  destruct (i <? 0); [done|]. intros Hx. apply list_elem_of_lookup. eauto.
Qed.

(** [getValidator] never returns a validator outside the persisted set,
    and it is periodic: two timestamps whose slot numbers are not
    negative and differ by a multiple of the number of validators get the
    same validator. *)
Theorem getValidator_round_robin `{Codec} (c : Chain) (timestamp : Z) :
  (∀ v, ChainOps.getValidator c timestamp = Some v → v ∈ ChainOps.getValidators c)
  ∧ (∀ timestamp' k,
       0 <= getSlotNumber (slots c) timestamp → 0 <= k →
       getSlotNumber (slots c) timestamp'
       = getSlotNumber (slots c) timestamp
         + k * Z.of_nat (length (ChainOps.getValidators c)) →
       ChainOps.getValidator c timestamp' = ChainOps.getValidator c timestamp).
Proof.
  unfold ChainOps.getValidator. split.
  - intros v. apply js_index_elem_of.
  - intros timestamp' k Hslot Hk Hslot'.
    destruct (ChainOps.getValidators c) as [|v vs] eqn:Hvs; [done|].
    destruct (js_index_rem_Some (v :: vs) (getSlotNumber (slots c) timestamp))
      as [-> _]; [done..|].
    destruct (js_index_rem_Some (v :: vs) (getSlotNumber (slots c) timestamp'))
      as [-> _]; [done|nia|].
    rewrite Hslot'. by rewrite Z_mod_plus_full.
Qed.

Lemma getValidator_round_robin_witness :
  (∀ v, @ChainOps.getValidator Fixture.codec Fixture.chain1 1035 = Some v →
        v ∈ @ChainOps.getValidators Fixture.codec Fixture.chain1)
  ∧ @ChainOps.getValidator Fixture.codec Fixture.chain1 1075
    = @ChainOps.getValidator Fixture.codec Fixture.chain1 1035.
Proof.
  split.
  - apply (proj1 (@getValidator_round_robin Fixture.codec Fixture.chain1 1035)).
  - apply (proj2 (@getValidator_round_robin Fixture.codec Fixture.chain1 1035) 1075 2).
    + discriminate.
    + discriminate.
    + vm_compute. reflexivity.
Defined.

(** ** Does the genesis block exist? *)

(** [genesisBlockExist] answers [true] exactly when the header read by
    the candidate's id is found and the read of the last header does not
    fail (a last header need not exist); [false] exactly when neither
    read finds a header; it throws 'Genesis block does not match' when a
    last header exists but none under the candidate's id; and a storage
    failure of either read is rethrown, that of the read by id first. *)
Theorem genesisBlockExist_spec (reads : HeaderReads) (genesisBlock : GenesisBlock) :
  let byID := getBlockHeaderByID reads (id (header genesisBlock)) in
  let last := getLastBlockHeader reads in
  (ChainOps.genesisBlockExist reads genesisBlock = Ok true
   ↔ (∃ h, byID = Found h) ∧ ∀ e, last ≠ StorageFailure e)
  ∧ (ChainOps.genesisBlockExist reads genesisBlock = Ok false
     ↔ byID = NotFoundError ∧ last = NotFoundError)
  ∧ (byID = NotFoundError → (∃ h, last = Found h) →
     ChainOps.genesisBlockExist reads genesisBlock
     = Throw "Genesis block does not match")
  ∧ (∀ e, byID = StorageFailure e →
          ChainOps.genesisBlockExist reads genesisBlock = Throw e)
  ∧ (∀ e, (∀ e', byID ≠ StorageFailure e') → last = StorageFailure e →
          ChainOps.genesisBlockExist reads genesisBlock = Throw e).
Proof.
  intros byID last. unfold ChainOps.genesisBlockExist. fold byID last.
  destruct byID as [h| |e]; destruct last as [h'| |e']; cbn;
    repeat split; try done.
  all: try (intros; by eauto).
  all: try (by intros [[? ?] ?]).
  all: try (by intros [? ?]).
  - intros [_ Hlast]. by destruct (Hlast e').
  - intros e _ [= ->]. done.
  - by intros _ [? ?].
  - by intros _ [? ?].
  - intros e _ [= ->]. done.
  - by intros e0 [= ->].
  - by intros e0 [= ->].
  - by intros e0 [= ->].
  - intros e0 Hne. by destruct (Hne e).
Qed.

Lemma genesisBlockExist_spec_witness :
  let tip := header Fixture.block1 in
  ChainOps.genesisBlockExist
    {| getBlockHeaderByID := λ _, NotFoundError; getLastBlockHeader := Found tip |}
    Fixture.genesis
  = Throw "Genesis block does not match"
  ∧ ChainOps.genesisBlockExist
      {| getBlockHeaderByID := λ _, StorageFailure "IO error";
         getLastBlockHeader := Found tip |}
      Fixture.genesis
    = Throw "IO error"
  ∧ ChainOps.genesisBlockExist
      {| getBlockHeaderByID := λ _, NotFoundError;
         getLastBlockHeader := StorageFailure "IO error" |}
      Fixture.genesis
    = Throw "IO error".
Proof.
  intros tip. split; [|split].
  - apply (proj1 (proj2 (proj2 (genesisBlockExist_spec
             {| getBlockHeaderByID := λ _, NotFoundError;
                getLastBlockHeader := Found tip |} Fixture.genesis))));
      [reflexivity|by exists tip].
  - apply (proj1 (proj2 (proj2 (proj2 (genesisBlockExist_spec
             {| getBlockHeaderByID := λ _, StorageFailure "IO error";
                getLastBlockHeader := Found tip |} Fixture.genesis))))).
    reflexivity.
  - apply (proj2 (proj2 (proj2 (proj2 (genesisBlockExist_spec
             {| getBlockHeaderByID := λ _, NotFoundError;
                getLastBlockHeader := StorageFailure "IO error" |} Fixture.genesis))))).
    + intros e'. discriminate.
    + reflexivity.
Defined.

(** * The forger plugin database *)

Section ForgerDBFacts.
Context {Voter : Type}.
Variable DB_KEY_FORGER_INFO : string.
Variable DB_KEY_FORGER_SYNC_INFO : string.
Variable encodeSyncInfo : ForgerDB.ForgetSyncInfo → Buffer.
Variable decodeSyncInfo : Buffer → Result ForgerDB.ForgetSyncInfo.
Variable encodeForgerInfo : ForgerDB.ForgerInfo Voter → Buffer.
Variable decodeForgerInfo : Buffer → Result (ForgerDB.ForgerInfo Voter).

#[local] Abbreviation getForgerSyncInfo :=
  (ForgerDB.getForgerSyncInfo DB_KEY_FORGER_SYNC_INFO decodeSyncInfo).
#[local] Abbreviation setForgerSyncInfo :=
  (ForgerDB.setForgerSyncInfo DB_KEY_FORGER_SYNC_INFO encodeSyncInfo).
#[local] Abbreviation getForgerInfo :=
  (ForgerDB.getForgerInfo DB_KEY_FORGER_INFO decodeForgerInfo).
#[local] Abbreviation setForgerInfo :=
  (ForgerDB.setForgerInfo DB_KEY_FORGER_INFO encodeForgerInfo).
#[local] Abbreviation forgerInfoKey := (ForgerDB.forgerInfoKey DB_KEY_FORGER_INFO).

Lemma forgerInfoKey_inj (a a' : string) :
  forgerInfoKey a = forgerInfoKey a' → a = a'.
Proof.
  unfold ForgerDB.forgerInfoKey. intros Heq.
  apply (String.app_inj DB_KEY_FORGER_INFO) in Heq.
  by apply (String.app_inj ":") in Heq.
Qed.

(** The sync height read after [setForgerSyncInfo] is the height that
    was set, for a codec that decodes what it encoded. *)
Theorem getForgerSyncInfo_setForgerSyncInfo (db : gmap string Buffer)
    (blockHeight : Z) :
  decodeSyncInfo (encodeSyncInfo {| ForgerDB.syncUptoHeight := blockHeight |})
  = Ok {| ForgerDB.syncUptoHeight := blockHeight |} →
  getForgerSyncInfo (setForgerSyncInfo db blockHeight)
  = Ok {| ForgerDB.syncUptoHeight := blockHeight |}.
Proof.
  intros Hcodec.
  unfold ForgerDB.getForgerSyncInfo, ForgerDB.setForgerSyncInfo, ForgerDB.db_get.
  by rewrite lookup_insert_eq, Hcodec.
Qed.

(** [getForgerSyncInfo] never fails: when no sync entry is stored, or the
    stored entry does not decode, it answers [syncUptoHeight = 0]. *)
Theorem getForgerSyncInfo_default (db : gmap string Buffer) :
  (∃ info, getForgerSyncInfo db = Ok info)
  ∧ (db !! DB_KEY_FORGER_SYNC_INFO = None →
     getForgerSyncInfo db = Ok {| ForgerDB.syncUptoHeight := 0 |})
  ∧ (∀ encoded error,
       db !! DB_KEY_FORGER_SYNC_INFO = Some encoded →
       decodeSyncInfo encoded = Throw error →
       getForgerSyncInfo db = Ok {| ForgerDB.syncUptoHeight := 0 |}).
Proof.
  unfold ForgerDB.getForgerSyncInfo, ForgerDB.db_get. repeat split.
  - destruct (db !! DB_KEY_FORGER_SYNC_INFO) as [encoded|]; [|by eexists].
    destruct (decodeSyncInfo encoded); by eexists.
  - by intros ->.
  - intros encoded error -> ->. done.
Qed.

(** The forger info read after [setForgerInfo] for the same address is
    what the codec decodes from the encoding of the info that was set;
    the info of every other address reads as before. *)
Theorem getForgerInfo_setForgerInfo (db : gmap string Buffer)
    (forgerAddress : string) (forgerInfo : ForgerDB.ForgerInfo Voter) :
  getForgerInfo (setForgerInfo db forgerAddress forgerInfo) forgerAddress
  = decodeForgerInfo (encodeForgerInfo forgerInfo)
  ∧ (∀ other, other ≠ forgerAddress →
       getForgerInfo (setForgerInfo db forgerAddress forgerInfo) other
       = getForgerInfo db other).
Proof.
  unfold ForgerDB.getForgerInfo, ForgerDB.setForgerInfo, ForgerDB.db_get. split.
  - by rewrite lookup_insert_eq.
  - intros other Hne. rewrite lookup_insert_ne; [done|].
    intros Heq. apply forgerInfoKey_inj in Heq. done.
Qed.

(** For an address without a stored entry [getForgerInfo] answers the
    zero record; a stored entry that does not decode makes it fail with
    the decoder's error (unlike [getForgerSyncInfo]). *)
Theorem getForgerInfo_missing_or_corrupt (db : gmap string Buffer)
    (forgerAddress : string) :
  (db !! forgerInfoKey forgerAddress = None →
     getForgerInfo db forgerAddress
     = Ok (ForgerDB.mkForgerInfo 0 0 0 []))
  ∧ (∀ encoded error,
       db !! forgerInfoKey forgerAddress = Some encoded →
       decodeForgerInfo encoded = Throw error →
       getForgerInfo db forgerAddress = Throw error).
Proof.
  unfold ForgerDB.getForgerInfo, ForgerDB.db_get. split.
  - by intros ->.
  - by intros encoded error -> ->.
Qed.

(** The sync info and the info of a forger share the store.  For an
    address whose key is not the sync key, writing the forger's info
    leaves the sync info as it reads and writing the sync info leaves the
    forger's info as it reads.  For an address whose key is the sync key,
    each write lands on the other's entry: the forger's info then reads
    as the sync record decoded at the forger schema, and the sync info
    as the forger record decoded at the sync schema, or as height 0
    where that decoding throws. *)
Theorem forger_info_sync_interference (db : gmap string Buffer)
    (forgerAddress : string) (forgerInfo : ForgerDB.ForgerInfo Voter)
    (blockHeight : Z) :
  (DB_KEY_FORGER_SYNC_INFO ≠ forgerInfoKey forgerAddress →
     getForgerSyncInfo (setForgerInfo db forgerAddress forgerInfo) = getForgerSyncInfo db
     ∧ getForgerInfo (setForgerSyncInfo db blockHeight) forgerAddress
       = getForgerInfo db forgerAddress)
  ∧ (DB_KEY_FORGER_SYNC_INFO = forgerInfoKey forgerAddress →
     getForgerInfo (setForgerSyncInfo db blockHeight) forgerAddress
     = decodeForgerInfo (encodeSyncInfo {| ForgerDB.syncUptoHeight := blockHeight |})
     ∧ getForgerSyncInfo (setForgerInfo db forgerAddress forgerInfo)
       = match decodeSyncInfo (encodeForgerInfo forgerInfo) with
         | Ok info => Ok info
         | Throw _ => Ok {| ForgerDB.syncUptoHeight := 0 |}
         end).
Proof.
  unfold ForgerDB.getForgerSyncInfo, ForgerDB.getForgerInfo, ForgerDB.setForgerInfo,
    ForgerDB.setForgerSyncInfo, ForgerDB.db_get.
  split.
  - intros Hkeys. split.
    + by rewrite lookup_insert_ne.
    + by rewrite lookup_insert_ne.
  - intros <-. by rewrite !lookup_insert_eq.
Qed.

End ForgerDBFacts.

Lemma getForgerSyncInfo_setForgerSyncInfo_witness :
  ForgerDB.getForgerSyncInfo Fixture.forgerSyncKey Fixture.decodeSync
    (ForgerDB.setForgerSyncInfo Fixture.forgerSyncKey Fixture.encodeSync
       Fixture.corruptForgerDB 42)
  = Ok {| ForgerDB.syncUptoHeight := 42 |}.
Proof.
  apply (getForgerSyncInfo_setForgerSyncInfo Fixture.forgerSyncKey
           Fixture.encodeSync Fixture.decodeSync Fixture.corruptForgerDB 42).
  reflexivity.
Defined.

Lemma getForgerSyncInfo_default_witness :
  ForgerDB.getForgerSyncInfo Fixture.forgerSyncKey Fixture.decodeSync ∅
  = Ok {| ForgerDB.syncUptoHeight := 0 |}
  ∧ ForgerDB.getForgerSyncInfo Fixture.forgerSyncKey Fixture.decodeSync
      Fixture.corruptForgerDB
    = Ok {| ForgerDB.syncUptoHeight := 0 |}.
Proof.
  split.
  - apply (proj1 (proj2 (getForgerSyncInfo_default Fixture.forgerSyncKey
                           Fixture.decodeSync ∅))).
    reflexivity.
  - apply (proj2 (proj2 (getForgerSyncInfo_default Fixture.forgerSyncKey
                           Fixture.decodeSync Fixture.corruptForgerDB))
             ["001"%byte; "002"%byte] "Invalid buffer length").
    + vm_compute. reflexivity.
    + reflexivity.
Defined.

Lemma getForgerInfo_setForgerInfo_witness :
  let info := ForgerDB.mkForgerInfo 3 20 30 ([] : list Buffer) in
  let db := ForgerDB.setForgerInfo Fixture.forgerInfoKeyPrefix Fixture.encodeForger
              Fixture.corruptForgerDB "bb" info in
  ForgerDB.getForgerInfo Fixture.forgerInfoKeyPrefix Fixture.decodeForger db "bb"
  = Ok info
  ∧ ForgerDB.getForgerInfo Fixture.forgerInfoKeyPrefix Fixture.decodeForger db "aa"
    = ForgerDB.getForgerInfo Fixture.forgerInfoKeyPrefix Fixture.decodeForger
        Fixture.corruptForgerDB "aa".
Proof.
  intros info db. split.
  - apply (proj1 (getForgerInfo_setForgerInfo Fixture.forgerInfoKeyPrefix
                    Fixture.encodeForger Fixture.decodeForger
                    Fixture.corruptForgerDB "bb" info)).
  - apply (proj2 (getForgerInfo_setForgerInfo Fixture.forgerInfoKeyPrefix
                    Fixture.encodeForger Fixture.decodeForger
                    Fixture.corruptForgerDB "bb" info) "aa").
    discriminate.
Defined.

Lemma getForgerInfo_missing_or_corrupt_witness :
  ForgerDB.getForgerInfo Fixture.forgerInfoKeyPrefix Fixture.decodeForger
    Fixture.corruptForgerDB "bb"
  = Ok (ForgerDB.mkForgerInfo 0 0 0 [])
  ∧ ForgerDB.getForgerInfo Fixture.forgerInfoKeyPrefix Fixture.decodeForger
      Fixture.corruptForgerDB "aa"
    = Throw "Invalid buffer length".
Proof.
  split.
  - apply (proj1 (getForgerInfo_missing_or_corrupt Fixture.forgerInfoKeyPrefix
                    Fixture.decodeForger Fixture.corruptForgerDB "bb")).
    vm_compute. reflexivity.
  - apply (proj2 (getForgerInfo_missing_or_corrupt Fixture.forgerInfoKeyPrefix
                    Fixture.decodeForger Fixture.corruptForgerDB "aa")
             ["001"%byte] "Invalid buffer length").
    + vm_compute. reflexivity.
    + reflexivity.
Defined.

Lemma forger_info_sync_interference_witness :
  let info := ForgerDB.mkForgerInfo 3 20 30 ([] : list Buffer) in
  (ForgerDB.getForgerSyncInfo Fixture.forgerSyncKey Fixture.decodeSync
     (ForgerDB.setForgerInfo Fixture.forgerInfoKeyPrefix Fixture.encodeForger ∅ "bb" info)
   = ForgerDB.getForgerSyncInfo Fixture.forgerSyncKey Fixture.decodeSync ∅
   ∧ ForgerDB.getForgerInfo Fixture.forgerInfoKeyPrefix Fixture.decodeForger
       (ForgerDB.setForgerSyncInfo Fixture.forgerSyncKey Fixture.encodeSync ∅ 42) "bb"
     = ForgerDB.getForgerInfo Fixture.forgerInfoKeyPrefix Fixture.decodeForger ∅ "bb")
  ∧ (ForgerDB.getForgerInfo Fixture.forgerInfoKeyPrefix Fixture.decodeForger
       (ForgerDB.setForgerSyncInfo Fixture.forgerSyncKey Fixture.encodeSync ∅ 42) "sync"
     = Fixture.decodeForger (Fixture.encodeSync {| ForgerDB.syncUptoHeight := 42 |})
     ∧ ForgerDB.getForgerSyncInfo Fixture.forgerSyncKey Fixture.decodeSync
         (ForgerDB.setForgerInfo Fixture.forgerInfoKeyPrefix Fixture.encodeForger ∅
            "sync" info)
       = match Fixture.decodeSync (Fixture.encodeForger info) with
         | Ok info => Ok info
         | Throw _ => Ok {| ForgerDB.syncUptoHeight := 0 |}
         end).
Proof.
  intros info. split.
  - apply (proj1 (forger_info_sync_interference Fixture.forgerInfoKeyPrefix
                    Fixture.forgerSyncKey Fixture.encodeSync Fixture.decodeSync
                    Fixture.encodeForger Fixture.decodeForger ∅ "bb" info 42)).
    discriminate.
  - apply (proj2 (forger_info_sync_interference Fixture.forgerInfoKeyPrefix
                    Fixture.forgerSyncKey Fixture.encodeSync Fixture.decodeSync
                    Fixture.encodeForger Fixture.decodeForger ∅ "sync" info 42)).
    reflexivity.
Defined.

(** With the keys ['forger:info'] and ['forger:info:sync'], the forger
    address ['sync'] is the one whose key is the sync key: writing the
    sync info makes that forger's info unreadable. *)
Example forger_address_sync_collides :
  Fixture.forgerSyncKey = ForgerDB.forgerInfoKey Fixture.forgerInfoKeyPrefix "sync"
  ∧ ForgerDB.getForgerInfo Fixture.forgerInfoKeyPrefix Fixture.decodeForger ∅ "sync"
    = Ok (ForgerDB.mkForgerInfo 0 0 0 [])
  ∧ ForgerDB.getForgerInfo Fixture.forgerInfoKeyPrefix Fixture.decodeForger
      (ForgerDB.setForgerSyncInfo Fixture.forgerSyncKey Fixture.encodeSync ∅ 42) "sync"
    = Throw "Invalid buffer length".
Proof. vm_compute. repeat split; reflexivity. Qed.

(** * Initialising the chain *)

Lemma foldl_addBlockHeader (l : list Header) (da : DataAccess) :
  let da' := foldl DataAccessOps.addBlockHeader da l in
  blocksCache da' `suffix_of` (blocksCache da ++ l)
  ∧ blocks da' = blocks da ∧ blockIDsByHeight da' = blockIDsByHeight da
  ∧ state da' = state da ∧ diffs da' = diffs da.
Proof.
  revert da. induction l as [|h l IH]; intros da; cbn zeta.
  - rewrite app_nil_r. done.
  - cbn [foldl]. destruct (IH (DataAccessOps.addBlockHeader da h))
      as (Hsuffix & Hb & Hi & Hs & Hd).
    split; [|done].
    etrans; [exact Hsuffix|].
    replace (blocksCache da ++ h :: l) with ((blocksCache da ++ [h]) ++ l)
      by (by rewrite <- app_assoc).
    apply suffix_app.
    unfold DataAccessOps.addBlockHeader. cbn.
    destruct (_ >? _); [|done].
    destruct (blocksCache da ++ [h]) as [|x xs]; [done|].
    cbn. by apply suffix_cons_r.
Qed.

Lemma elem_of_insertByHeight (x y : Header) (l : list Header) :
  y ∈ ChainOps.insertByHeight x l ↔ y = x ∨ y ∈ l.
Proof.
  induction l as [|z zs IH]; cbn.
  - rewrite list_elem_of_singleton. split; [by left|].
    intros [?|Hin]; [done|by apply not_elem_of_nil in Hin].
  - destruct (height x <=? height z).
    + by rewrite elem_of_cons.
    + rewrite !elem_of_cons, IH. tauto.
Qed.

Lemma elem_of_sortByHeight (y : Header) (l : list Header) :
  y ∈ ChainOps.sortByHeight l ↔ y ∈ l.
Proof.
  induction l as [|x l IH]; [done|].
  cbn. rewrite elem_of_insertByHeight, elem_of_cons, IH. tauto.
Qed.

Lemma insertByHeight_sorted (x : Header) (l : list Header) :
  StronglySorted (λ a b : Header, height a <= height b) l →
  StronglySorted (λ a b : Header, height a <= height b) (ChainOps.insertByHeight x l).
Proof.
  induction 1 as [|z zs Hzs IH Hz]; cbn.
  - repeat constructor.
  - destruct (Z.leb_spec (height x) (height z)).
    + constructor; [by constructor|].
      constructor; [done|]. eapply Forall_impl; [exact Hz|].
      cbn. intros; lia.
    + constructor; [done|].
      apply Forall_forall. intros y Hy.
      apply elem_of_insertByHeight in Hy as [->|Hy]; [lia|].
      rewrite Forall_forall in Hz. by apply Hz.
Qed.

Lemma sortByHeight_sorted (l : list Header) :
  StronglySorted (λ a b : Header, height a <= height b) (ChainOps.sortByHeight l).
Proof.
  induction l as [|x l IH]; [constructor|].
  change (ChainOps.sortByHeight (x :: l))
    with (ChainOps.insertByHeight x (ChainOps.sortByHeight l)).
  by apply insertByHeight_sorted.
Qed.

Lemma StronglySorted_suffix {A : Type} (R : A → A → Prop) (l1 l2 : list A) :
  l1 `suffix_of` l2 → StronglySorted R l2 → StronglySorted R l1.
Proof.
  intros [k ->]. induction k as [|x k IH]; [done|].
  cbn. intros Hs. apply IH. by apply StronglySorted_inv in Hs as [? _].
Qed.

(** [init] fails with 'Failed to load last block', leaving the chain as
    it was, whenever the last block cannot be read, be it missing or a
    storage failure.  When it is read, the tip becomes that block and the
    validator count the number of persisted validators; the persisted
    blocks and state, the validator set and the emitted events are
    untouched, and so is the header cache when the tip is at the genesis
    height. *)
Theorem init_outcome `{Codec} (c : Chain) (DEFAULT_MAX_BLOCK_HEADER_CACHE : Z)
    (getLastBlock : Lookup Block) :
  let '(result, c') := ChainOps.init c DEFAULT_MAX_BLOCK_HEADER_CACHE getLastBlock in
  match getLastBlock with
  | Found storageLastBlock =>
      result = Ok tt
      ∧ _lastBlock c' = storageLastBlock
      ∧ ChainOps.numberOfValidators c' = Z.of_nat (length (ChainOps.getValidators c'))
      ∧ ChainOps.getValidators c' = ChainOps.getValidators c
      ∧ blocks (dataAccess c') = blocks (dataAccess c)
      ∧ state (dataAccess c') = state (dataAccess c)
      ∧ events c' = events c
      ∧ (height (header storageLastBlock) = height (header (ChainOps.genesisBlock c)) →
         dataAccess c' = dataAccess c)
  | _ => result = Throw "Failed to load last block" ∧ c' = c
  end.
Proof.
  unfold ChainOps.init. destruct getLastBlock as [b| |e]; [|done..].
  destruct (Z.eqb_spec (height (header b)) (height (header (ChainOps.genesisBlock c))))
    as [Heq|Hne]; cbn [negb].
  - repeat split; done.
  - unfold ChainOps._cacheBlockHeaders. cbn zeta.
    match goal with
    | |- context [foldl DataAccessOps.addBlockHeader ?da ?l] =>
        destruct (foldl_addBlockHeader l da) as (_ & Hb & _ & Hs & _)
    end.
    cbn zeta in Hb, Hs.
    unfold ChainOps.getValidators, DataAccessOps.getConsensusState. cbn.
    rewrite Hs. repeat split; done.
Qed.

(** After [init] on a chain whose header cache is empty (as the
    constructor leaves it), the cached headers are in ascending order of
    height, and each of them is one of the stored headers of the heights
    from [max(tip.height − DEFAULT_MAX_BLOCK_HEADER_CACHE, 0)] to
    [tip.height]. *)
Theorem init_cache_ascending `{Codec} (c c' : Chain)
    (DEFAULT_MAX_BLOCK_HEADER_CACHE : Z) (storageLastBlock : Block) :
  blocksCache (dataAccess c) = [] →
  ChainOps.init c DEFAULT_MAX_BLOCK_HEADER_CACHE (Found storageLastBlock) = (Ok tt, c') →
  StronglySorted (λ a b : Header, height a <= height b) (blocksCache (dataAccess c'))
  ∧ ∀ h, h ∈ blocksCache (dataAccess c') →
         h ∈ DataAccessOps.getBlockHeadersByHeightBetween (dataAccess c)
               (Z.max (height (header storageLastBlock)
                       - DEFAULT_MAX_BLOCK_HEADER_CACHE) 0)
               (height (header storageLastBlock)).
Proof.
  intros Hempty Hinit. unfold ChainOps.init in Hinit.
  destruct (Z.eqb_spec (height (header storageLastBlock))
              (height (header (ChainOps.genesisBlock c)))) as [Heq|Hne];
    cbn [negb] in Hinit; inversion Hinit; subst c'; clear Hinit; cbn.
  - rewrite Hempty. split; [constructor|].
    intros h Hh. by apply not_elem_of_nil in Hh.
  - match goal with
    | |- context [foldl DataAccessOps.addBlockHeader ?da ?l] =>
        destruct (foldl_addBlockHeader l da) as (Hsuffix & _)
    end.
    cbn zeta in Hsuffix. rewrite Hempty in Hsuffix. cbn [app] in Hsuffix.
    split.
    + eapply StronglySorted_suffix; [exact Hsuffix|]. apply sortByHeight_sorted.
    + intros h Hh. apply elem_of_sortByHeight.
      destruct Hsuffix as [k Hk]. rewrite Hk. apply elem_of_app. by right.
Qed.

Lemma init_cache_ascending_witness :
  let c' := (@ChainOps.init Fixture.codec Fixture.chain0 4 (Found Fixture.block1)).2 in
  StronglySorted (λ a b : Header, height a <= height b) (blocksCache (dataAccess c'))
  ∧ ∀ h, h ∈ blocksCache (dataAccess c') →
         h ∈ DataAccessOps.getBlockHeadersByHeightBetween (dataAccess Fixture.chain0)
               (Z.max (height (header Fixture.block1) - 4) 0)
               (height (header Fixture.block1)).
Proof.
  intros c'.
  apply (@init_cache_ascending Fixture.codec Fixture.chain0 c' 4 Fixture.block1);
    reflexivity.
Defined.

(** On the devnet fixture [init] caches the genesis header and the header
    of [block1], in this order, and counts two validators. *)
Example init_fixture :
  let c' := (@ChainOps.init Fixture.codec Fixture.chain0 4 (Found Fixture.block1)).2 in
  blocksCache (dataAccess c') = [header (asBlock Fixture.genesis); header Fixture.block1]
  ∧ ChainOps.numberOfValidators c' = 2
  ∧ _lastBlock c' = Fixture.block1.
Proof. repeat split; vm_compute; reflexivity. Qed.
